(** * checkpoint-tools: the command line of [checkpoint_tools/__main__.py]

    A shallow embedding of the four commands ([convert],
    [convert-to-diffusers], [combine], [metadata]) over an explicit world
    (object heap, file system, console, trace of the pipeline stages that
    were called), and the properties of the state-dict pipeline stated
    about them.

    The commands import their helpers from [checkpoint_tools/util.py],
    [safetensors.torch] and [click]; these are no part of [__main__.py]
    and enter the commands through the record [Util]. The two stages of
    [util.py] that the specification describes step by step (filter/rename
    and precision cast) are modelled from its text further down. *)

From Stdlib Require Import ZArith NArith String Ascii List Bool Lia.
From Stdlib Require Import Floats.
From stdpp Require Import base option list gmap strings.

Local Open Scope string_scope.
Local Open Scope list_scope.

(** ** Python strings *)

(** Unfolds the concatenations that start with a known character. *)
Ltac str_norm :=
  repeat first
    [ progress change (String.append (String ?c ?a) ?b)
        with (String c (String.append a b)) in *
    | progress change (String.append EmptyString ?s) with s in * ].

Module PyStr.

(** [s.partition(":")]: the text before the first colon, the separator
    found, the text after it; without a colon the whole string and two
    empty strings. *)
Fixpoint partition (sep : ascii) (s : string) : string * string * string :=
  match s with
  | EmptyString => (EmptyString, EmptyString, EmptyString)
  | String c r =>
      if Ascii.eqb c sep then (EmptyString, String sep EmptyString, r)
      else let '(a, m, b) := partition sep r in (String c a, m, b)
  end.

(** [sep in s] for a one-character [sep]. *)
Fixpoint contains_char (sep : ascii) (s : string) : bool :=
  match s with
  | EmptyString => false
  | String c r => Ascii.eqb c sep || contains_char sep r
  end.

(** The scan of [str.replace] for a non-empty [old]: [skip] counts the
    characters of a match that are still to be jumped over. *)
Fixpoint replace_scan (old new s : string) (skip : nat) : string :=
  match s with
  | EmptyString => EmptyString
  | String c r =>
      match skip with
      | S k => replace_scan old new r k
      | O =>
          if String.prefix old s
          then new ++ replace_scan old new r (String.length old - 1)
          else String c (replace_scan old new r 0)
      end
  end.

(** [str.replace] with an empty [old]: [new] goes before every character
    and at the end. *)
Fixpoint interleave (new s : string) : string :=
  match s with
  | EmptyString => new
  | String c r => new ++ String c (interleave new r)
  end.

(** [s.replace(old, new)]: every occurrence, left to right, matches not
    overlapping. *)
Definition replace (old new s : string) : string :=
  match old with
  | EmptyString => interleave new s
  | String _ _ => replace_scan old new s 0
  end.

(** [sep.join(parts)]. *)
Fixpoint join (sep : string) (parts : list string) : string :=
  match parts with
  | [] => EmptyString
  | [p] => p
  | p :: rest => p ++ sep ++ join sep rest
  end.

(** [s.split(sep)[-1]] for a one-character [sep]: the text after the
    last [sep], the whole string when there is none. *)
Fixpoint after_last (sep : ascii) (s : string) : string :=
  match s with
  | EmptyString => EmptyString
  | String c r =>
      if contains_char sep s
      then (if Ascii.eqb c sep && negb (contains_char sep r) then r
            else after_last sep r)
      else s
  end.

(** [s[:s.rfind(sep)]] when [sep] occurs in [s]. *)
Fixpoint before_last (sep : ascii) (s : string) : string :=
  match s with
  | EmptyString => EmptyString
  | String c r =>
      if contains_char sep r then String c (before_last sep r)
      else EmptyString
  end.

(** Is there a character other than [c] in [s]? *)
Fixpoint has_other (c : ascii) (s : string) : bool :=
  match s with
  | EmptyString => false
  | String d r => negb (Ascii.eqb d c) || has_other c r
  end.

(** [os.path.basename] on a POSIX path. *)
Definition basename (p : string) : string := after_last "/" p.

(** [os.path.splitext(p)[0]] for a path without directory part: the
    last dot starts the extension unless only dots stand before it. *)
Definition splitext_root (p : string) : string :=
  if contains_char "." p
  then (if has_other "." (before_last "." p) then before_last "." p else p)
  else p.

(** Decimal digits of a natural number, as [str(n)] prints them. *)
Definition digit (n : N) : ascii := ascii_of_N (48 + n).

Fixpoint digits_fuel (fuel : nat) (n : N) (acc : string) : string :=
  match fuel with
  | O => acc
  | S f =>
      let acc' := String (digit (n mod 10)) acc in
      if (n <? 10)%N then acc' else digits_fuel f (n / 10)%N acc'
  end.

Definition str_of_N (n : N) : string :=
  digits_fuel (S (N.to_nat (N.log2 n))) n EmptyString.

(** The thousands grouping of the format [{n:,d}]. *)
Fixpoint group3 (rev_digits : list ascii) (seen : nat) : list ascii :=
  match rev_digits with
  | [] => []
  | c :: rest =>
      if (seen =? 3)%nat then ","%char :: c :: group3 rest 1
      else c :: group3 rest (S seen)
  end.

Definition format_comma_d (n : N) : string :=
  string_of_list_ascii
    (rev (group3 (rev (list_ascii_of_string (str_of_N n))) 0)).

End PyStr.

(** ** Python dictionaries

    A [dict] keeps its keys in insertion order; assigning to a key that is
    present replaces the value where the key stands. *)

Abbreviation pydict V := (list (string * V)).

Module PyDict.
Section Ops.
Context {V : Type}.

Definition keys (d : pydict V) : list string := map fst d.

Fixpoint get (k : string) (d : pydict V) : option V :=
  match d with
  | [] => None
  | (k', v) :: r => if String.eqb k' k then Some v else get k r
  end.

(** [d[k] = v] *)
Fixpoint set (k : string) (v : V) (d : pydict V) : pydict V :=
  match d with
  | [] => [(k, v)]
  | (k', v') :: r =>
      if String.eqb k' k then (k', v) :: r else (k', v') :: set k v r
  end.

(** [d.update(other)] and [dict(pairs)] *)
Definition update (d other : pydict V) : pydict V :=
  fold_left (fun acc kv => set (fst kv) (snd kv) acc) other d.

Definition of_pairs (pairs : list (string * V)) : pydict V :=
  update [] pairs.

Definition mem (k : string) (d : pydict V) : bool :=
  match get k d with Some _ => true | None => false end.
End Ops.
End PyDict.

(** ** Tensors and state dicts *)

(** Element formats ([torch.dtype]). *)
Inductive torch_dtype : Type :=
| torch_float64 | torch_float32 | torch_float16 | torch_bfloat16
| torch_float8_e4m3fn | torch_float8_e4m3fnuz
| torch_float8_e5m2 | torch_float8_e5m2fnuz
| torch_int64 | torch_int32 | torch_int16 | torch_int8 | torch_uint8
| torch_bool.

Definition is_floating_point (dt : torch_dtype) : bool :=
  match dt with
  | torch_float64 | torch_float32 | torch_float16 | torch_bfloat16
  | torch_float8_e4m3fn | torch_float8_e4m3fnuz
  | torch_float8_e5m2 | torch_float8_e5m2fnuz => true
  | _ => false
  end.

(** [str(dtype)] *)
Definition dtype_repr (dt : torch_dtype) : string :=
  match dt with
  | torch_float64 => "torch.float64"
  | torch_float32 => "torch.float32"
  | torch_float16 => "torch.float16"
  | torch_bfloat16 => "torch.bfloat16"
  | torch_float8_e4m3fn => "torch.float8_e4m3fn"
  | torch_float8_e4m3fnuz => "torch.float8_e4m3fnuz"
  | torch_float8_e5m2 => "torch.float8_e5m2"
  | torch_float8_e5m2fnuz => "torch.float8_e5m2fnuz"
  | torch_int64 => "torch.int64"
  | torch_int32 => "torch.int32"
  | torch_int16 => "torch.int16"
  | torch_int8 => "torch.int8"
  | torch_uint8 => "torch.uint8"
  | torch_bool => "torch.bool"
  end.

(** One element: a floating-point datum (sign, mantissa and exponent, or
    a zero, an infinity, a NaN) or an integer. *)
Inductive scalar : Type :=
| SFloat (v : spec_float)
| SInt (z : Z).

Record Tensor : Type := mkTensor {
  shape : list N;
  dtype : torch_dtype;
  data : list scalar
}.

(** [tensor.numel()] *)
Definition numel (t : Tensor) : N := fold_right N.mul 1%N (shape t).

Abbreviation state_dict := (list (string * Tensor)).

(** The [precision] flag of a command: [--full] and the rest of
    [precision_options]; [nf4] and [int8] only with
    [include_quantization]. *)
Inductive Precision : Type :=
| prec_full | prec_float16 | prec_bfloat16
| prec_float8_e4m3_fn | prec_float8_e4m3_fn_uz
| prec_float8_e5m2 | prec_float8_e5m2_fn_uz
| prec_nf4 | prec_int8.

(** [precision in ["nf4", "int8"]] *)
Definition is_quantization (p : Precision) : bool :=
  match p with prec_nf4 | prec_int8 => true | _ => false end.

(** ** The world the commands run in *)

(** Exceptions: the error taxonomy of the specification, and those of the
    interpreter: [FileNotFoundError] ([os.remove]), [OverflowError]
    ([float] of an integer beyond the doubles); [ReferenceError] stands
    for a reference to no object, which no command produces. *)
Inductive exn : Type :=
| LoadError | KeyCollisionError | UnsupportedCastError
| UnknownArchitectureError | ArchitectureMismatchError
| QuantizationError | WriteError
| FileNotFoundError | OverflowError | ReferenceError.

(** The pipeline stages, as the commands call them. *)
Inductive Event : Type :=
| EvLoad (input_file : string)
| EvSplit (input_file : string)
| EvFilterRename
| EvCast
| EvQuantize (model_name : string)
| EvWrite (output_file : string).

(** References to dict objects. *)
Definition loc : Type := nat.

Record World {File : Type} : Type := mkWorld {
  heap : list state_dict;
  fs : gmap string File;
  out : list string;
  trace : list Event
}.
Arguments World : clear implicits.
Arguments mkWorld {File}.

(** What the command line imports from [.util], [safetensors.torch] and
    the console helpers. The functions act on the content of a state dict;
    the commands below hold references. The loader and the splitter read
    the files, the writer changes them, the others see dicts only;
    [get_extension_for_state_dict] is taken as a plain function of the
    dict. *)
Record Util {File : Type} : Type := mkUtil {
  u_load_state_dict : string -> gmap string File -> exn + state_dict;
  u_get_filtered_renamed_state_dict :
    state_dict -> list string -> pydict string -> exn + state_dict;
  u_convert_state_dict_dtype : state_dict -> Precision -> exn + state_dict;
  u_get_extension_for_state_dict : state_dict -> string;
  u_get_diffusers_state_dicts_from_checkpoint :
    string -> option string -> gmap string File ->
    exn + (string * pydict state_dict);
  u_quantize_state_dict_for_model :
    state_dict -> string -> string -> Precision -> exn + state_dict;
  u_save_file :
    state_dict -> string -> gmap string File -> option exn * gmap string File;
  u_cyan : string -> string;
  u_green : string -> string
}.
Arguments Util : clear implicits.
Arguments mkUtil {File}.

(** [float(n)] for a Python integer: the nearest double, ties to even;
    [OverflowError] when it is out of the doubles' range. *)
Definition float_of_int (n : N) : exn + float :=
  match binary_normalize 53 1024 (Z.of_N n) 0 false with
  | S754_infinity _ => inl OverflowError
  | sf => inr (SF2Prim sf)
  end.

(** Nearest integer to [num / den], ties to even ([den] positive). *)
Definition div_round_half_even (num den : Z) : Z :=
  let q := (num / den)%Z in
  let r := (num mod den)%Z in
  if (2 * r <? den)%Z then q
  else if (den <? 2 * r)%Z then (q + 1)%Z
  else if Z.even q then q else (q + 1)%Z.

(** [digits] decimal digits of [n], zero-padded on the left. *)
Fixpoint fixed_digits (digits : nat) (n : N) (acc : string) : string :=
  match digits with
  | O => acc
  | S k => fixed_digits k (n / 10)%N (String (PyStr.digit (n mod 10)) acc)
  end.

(** The format [{x:.{precision}f}]: the double's exact value rounded to
    [precision] decimals, ties to even. *)
Definition format_f (precision : nat) (x : float) : string :=
  let scale := (10 ^ Z.of_nat precision)%Z in
  let body (s : bool) (n : Z) : string :=
    (if s then "-" else "") +:+
    PyStr.str_of_N (Z.to_N (n / scale)) +:+
    (match precision with
     | O => ""
     | S _ => "." +:+ fixed_digits precision (Z.to_N (n mod scale)) ""
     end) in
  match Prim2SF x with
  | S754_nan => "nan"
  | S754_infinity s => if s then "-inf" else "inf"
  | S754_zero s => body s 0%Z
  | S754_finite s m e =>
      body s
        (if (0 <=? e)%Z then (Z.pos m * 2 ^ e * scale)%Z
         else div_round_half_even (Z.pos m * scale) (2 ^ (- e)))
  end.

Section Commands.
Context {File : Type} (U : Util File).

(** State and exceptions: a raised exception keeps the world as it is at
    that point. *)
Definition M (A : Type) : Type := World File -> (exn + A) * World File.

Definition ret {A : Type} (a : A) : M A := fun w => (inr a, w).

Definition raise {A : Type} (e : exn) : M A := fun w => (inl e, w).

Definition bind {A B : Type} (m : M A) (k : A -> M B) : M B :=
  fun w =>
    match m w with
    | (inl e, w') => (inl e, w')
    | (inr a, w') => k a w'
    end.

#[local] Notation "'do' x <- m ; k" := (bind m (fun x => k))
  (at level 10, x name, m at level 100, k at level 200,
   format "'[v' 'do'  x  <-  m ; '/' k ']'").
#[local] Notation "m ;; k" := (bind m (fun _ => k))
  (at level 100, k at level 200, right associativity).

Definition log (e : Event) : M unit :=
  fun w => (inr tt, mkWorld (heap w) (fs w) (out w) (trace w ++ [e])).

(** [click.echo(line)] *)
Definition echo (line : string) : M unit :=
  fun w => (inr tt, mkWorld (heap w) (fs w) (out w ++ [line]) (trace w)).

(** A new dict object. *)
Definition alloc (d : state_dict) : M loc :=
  fun w => (inr (length (heap w)),
            mkWorld (heap w ++ [d]) (fs w) (out w) (trace w)).

Definition deref (r : loc) : M state_dict :=
  fun w =>
    match heap w !! r with
    | Some d => (inr d, w)
    | None => (inl ReferenceError, w)
    end.

(** In-place change of the object behind [r]. *)
Definition store (r : loc) (d : state_dict) : M unit :=
  fun w => (inr tt, mkWorld (<[r := d]> (heap w)) (fs w) (out w) (trace w)).

Fixpoint for_each {A : Type} (l : list A) (body : A -> M unit) : M unit :=
  match l with
  | [] => ret tt
  | x :: rest => body x ;; for_each rest body
  end.

Fixpoint fold_each {A S : Type} (l : list A) (body : S -> A -> M S) (s : S)
  : M S :=
  match l with
  | [] => ret s
  | x :: rest => do s' <- body s x; fold_each rest body s'
  end.

(** [os.path.exists] and [os.remove] *)
Definition os_path_exists (path : string) : M bool :=
  fun w => (inr (bool_decide (is_Some (fs w !! path))), w).

Definition os_remove (path : string) : M unit :=
  fun w =>
    match fs w !! path with
    | Some _ =>
        (inr tt, mkWorld (heap w) (delete path (fs w)) (out w) (trace w))
    | None => (inl FileNotFoundError, w)
    end.

Definition lift_result {A : Type} (r : exn + A) : M A :=
  match r with inl e => raise e | inr a => ret a end.

(** *** The imported helpers, as the commands see them

    Each call is recorded in the trace. The loader, filter/rename, the
    splitter and the quantizer hand back dicts, which the commands bind to
    a name and use from then on: they are new objects here (whether
    filter/rename builds a dict or changes its argument makes no
    difference to the commands, which never look at the argument
    again). *)

Definition load_state_dict (input_file : string) : M loc :=
  log (EvLoad input_file) ;;
  fun w => (do d <- lift_result (u_load_state_dict U input_file (fs w));
            alloc d) w.

Definition get_filtered_renamed_state_dict
    (r : loc) (ignore_keys : list string) (replace_keys : pydict string)
  : M loc :=
  log EvFilterRename ;;
  do d <- deref r;
  do d' <- lift_result
             (u_get_filtered_renamed_state_dict U d ignore_keys replace_keys);
  alloc d'.

(** Modelled from the spec: the effect of [convert_state_dict_dtype] of
    [util.py] on the dict it is given. Section 4.3: "callers observe
    mutation of values under existing keys". The three commands call it as
    a statement, [convert_state_dict_dtype(state_dict, precision)], and go
    on with the dict they passed: the content after the call is stored
    behind the same reference, and nothing is returned. *)
Definition convert_state_dict_dtype (r : loc) (precision : Precision)
  : M unit :=
  log EvCast ;;
  do d <- deref r;
  do d' <- lift_result (u_convert_state_dict_dtype U d precision);
  store r d'.

Definition get_extension_for_state_dict (r : loc) : M string :=
  do d <- deref r; ret (u_get_extension_for_state_dict U d).

Fixpoint alloc_items (items : pydict state_dict) : M (pydict loc) :=
  match items with
  | [] => ret []
  | (model_name, d) :: rest =>
      do r <- alloc d;
      do rs <- alloc_items rest;
      ret ((model_name, r) :: rs)
  end.

Definition get_diffusers_state_dicts_from_checkpoint
    (input_file : string) (model_type : option string)
  : M (string * pydict loc) :=
  log (EvSplit input_file) ;;
  fun w =>
    (do res <- lift_result
                 (u_get_diffusers_state_dicts_from_checkpoint
                    U input_file model_type (fs w));
     do rs <- alloc_items (snd res);
     ret (fst res, rs)) w.

Definition quantize_state_dict_for_model
    (r : loc) (model_type model_name : string) (precision : Precision)
  : M loc :=
  log (EvQuantize model_name) ;;
  do d <- deref r;
  do d' <- lift_result
             (u_quantize_state_dict_for_model U d model_type model_name
                precision);
  alloc d'.

(** [safetensors.torch.save_file(state_dict, output_file)] *)
Definition save_file (r : loc) (output_file : string) : M unit :=
  log (EvWrite output_file) ;;
  do d <- deref r;
  fun w =>
    let '(err, fs') := u_save_file U d output_file (fs w) in
    (match err with Some e => inl e | None => inr tt end,
     mkWorld (heap w) fs' (out w) (trace w)).

(** *** Shared pieces of the commands *)

(** [dict((key, value) for key, _, value in
          (key.partition(":") for key in replace_key))] *)
Definition parse_replace_key (arg : string) : string * string :=
  let '(key, _, value) := PyStr.partition ":" arg in (key, value).

Definition parse_replace_keys (replace_key : list string) : pydict string :=
  PyDict.of_pairs (map parse_replace_key replace_key).

(** [os.path.splitext(os.path.basename(input_file))[0]] *)
Definition default_name (input_file : string) : string :=
  PyStr.splitext_root (PyStr.basename input_file).

Definition exists_message (output_file : string) : string :=
  "Output file " +:+ output_file +:+
  " already exists, use --overwrite to replace".

(** The existence check before a write: [true] when the command goes on
    to write, [false] when it has reported and gives the output up. *)
Definition check_output (output_file : string) (overwrite : bool) : M bool :=
  do present <- os_path_exists output_file;
  if present then
    if overwrite then os_remove output_file ;; ret true
    else echo (exists_message output_file) ;; ret false
  else ret true.

(** *** [convert] *)
Definition convert
    (input_file : string) (name : option string) (precision : Precision)
    (overwrite : bool) (ignore_key replace_key : list string) : M unit :=
  let name :=
    match name with Some n => n | None => default_name input_file end in
  let replace_keys := parse_replace_keys replace_key in
  do state_dict <- load_state_dict input_file;
  do state_dict <-
    get_filtered_renamed_state_dict state_dict ignore_key replace_keys;
  convert_state_dict_dtype state_dict precision ;;
  do extension <- get_extension_for_state_dict state_dict;
  let output_file := name +:+ extension in
  do go <- check_output output_file overwrite;
  if go then
    echo ("Writing " +:+ output_file) ;;
    save_file state_dict output_file ;;
    echo "Done!"
  else ret tt.

(** *** [convert-to-diffusers] *)

(** One turn of the loop over [state_dicts.items()]. *)
Definition convert_sub_model
    (name model_type : string) (precision : Precision) (overwrite : bool)
    (ignore_key : list string) (replace_keys : pydict string)
    (item : string * loc) : M unit :=
  let '(model_name, state_dict) := item in
  do state_dict <-
    get_filtered_renamed_state_dict state_dict ignore_key replace_keys;
  convert_state_dict_dtype state_dict precision ;;
  do state_dict <-
    (if is_quantization precision
     then quantize_state_dict_for_model state_dict model_type model_name
            precision
     else ret state_dict);
  do extension <- get_extension_for_state_dict state_dict;
  let output_file := name +:+ "-" +:+ model_name +:+ extension in
  do go <- check_output output_file overwrite;
  if go then
    echo ("Writing " +:+ output_file) ;;
    save_file state_dict output_file
  else ret tt.

Definition convert_to_diffusers
    (input_file : string) (name model_type : option string)
    (precision : Precision) (overwrite : bool)
    (ignore_key replace_key : list string) : M unit :=
  let name :=
    match name with Some n => n | None => default_name input_file end in
  let replace_keys := parse_replace_keys replace_key in
  do split <- get_diffusers_state_dicts_from_checkpoint input_file model_type;
  for_each (snd split)
    (convert_sub_model name (fst split) precision overwrite ignore_key
       replace_keys) ;;
  echo "Done!".

(** *** [combine] *)

(** [combined_state_dict.update(state_dict)] *)
Definition dict_update_in_place (target other : loc) : M unit :=
  do d <- deref target;
  do o <- deref other;
  store target (PyDict.update d o).

(** The merge of the inputs: [combined_state_dict = {}] and the loop over
    [input_files]. *)
Definition load_combined (input_files : list string) : M loc :=
  do combined_state_dict <- alloc [];
  for_each input_files
    (fun input_file =>
       do state_dict <- load_state_dict input_file;
       dict_update_in_place combined_state_dict state_dict) ;;
  ret combined_state_dict.

Definition combine
    (input_files : list string) (name : option string)
    (precision : Precision) (overwrite : bool)
    (ignore_key replace_key : list string) : M unit :=
  let replace_keys := parse_replace_keys replace_key in
  let name :=
    match name with
    | Some n => n
    | None => PyStr.join "-" (map default_name input_files)
    end in
  do combined_state_dict <- load_combined input_files;
  do combined_state_dict <-
    get_filtered_renamed_state_dict combined_state_dict ignore_key
      replace_keys;
  convert_state_dict_dtype combined_state_dict precision ;;
  do extension <- get_extension_for_state_dict combined_state_dict;
  let output_file := name +:+ extension in
  do go <- check_output output_file overwrite;
  if go then
    echo ("Writing " +:+ output_file) ;;
    save_file combined_state_dict output_file ;;
    echo "Done!"
  else ret tt.

(** *** [metadata] *)

Definition abbreviated_units : list string := [""; "K"; "M"; "B"; "T"].

(** The loop [for unit in abbreviated_units]: stops at the first unit
    under which the value is below 1000, dividing by 1000 on the way. *)
Fixpoint abbreviate_loop
    (units : list string) (abbreviated_params : float) (unit : string)
  : float * string :=
  match units with
  | [] => (abbreviated_params, unit)
  | u :: rest =>
      if PrimFloat.ltb abbreviated_params 1000%float
      then (abbreviated_params, u)
      else abbreviate_loop rest (abbreviated_params / 1000)%float u
  end.

Definition abbreviate (total_params : N) : exn + string :=
  match float_of_int total_params with
  | inl e => inl e
  | inr f =>
      let '(abbreviated_params, unit) :=
        abbreviate_loop abbreviated_units f "" in
      let precision :=
        if String.eqb unit "" then 0
        else if PrimFloat.ltb abbreviated_params 10%float then 1 else 0 in
      inr (format_f precision abbreviated_params +:+ unit)
  end.

(** The line printed for one entry. *)
Definition metadata_line (key : string) (value : Tensor) : string :=
  let shape := PyStr.join ", " (map PyStr.str_of_N (shape value)) in
  let dtype := PyStr.after_last "." (dtype_repr (dtype value)) in
  u_cyan U key +:+ ": [" +:+ u_green U shape +:+ "] <" +:+ dtype +:+ ">".

Definition total_line (total_params : N) (abbreviated : string) : string :=
  "Total parameters: " +:+ u_cyan U abbreviated +:+
  " (" +:+ PyStr.format_comma_d total_params +:+ ")".

Definition metadata (input_file : string) : M unit :=
  do r <- load_state_dict input_file;
  do state_dict <- deref r;
  do total_params <-
    fold_each state_dict
      (fun total kv =>
         echo (metadata_line (fst kv) (snd kv)) ;;
         ret (total + numel (snd kv))%N)
      0%N;
  do abbreviated <- lift_result (abbreviate total_params);
  echo "" ;;
  echo (total_line total_params abbreviated).

End Commands.

(** ** The stages of [util.py], from the specification *)

Section FilterRename.

(** The specification leaves open how an ignore rule matches a key ("exact
    or pattern match"): [matches rule key]. *)
Variable matches : string -> string -> bool.

(** Modelled from the spec: the filter within
    [get_filtered_renamed_state_dict] of [util.py]. Section 4.2: a key is
    dropped if it matches any ignore rule. *)
Definition ignored (ignore_keys : list string) (key : string) : bool :=
  existsb (fun rule => matches rule key) ignore_keys.

(** Modelled from the spec: the renaming within
    [get_filtered_renamed_state_dict] of [util.py]. Section 4.2: every
    rename rule, in registration order, by substring replacement
    ([str.replace]). *)
Definition rename_key (rename_rules : pydict string) (key : string) : string :=
  fold_left (fun k rule => PyStr.replace (fst rule) (snd rule) k)
    rename_rules key.

(** Modelled from the spec: the loop of
    [get_filtered_renamed_state_dict] of [util.py] over the entries, with
    the result built so far. *)
Fixpoint filter_rename_into
    (entries : list (string * Tensor)) (ignore_keys : list string)
    (rename_rules : pydict string) (result : state_dict)
  : exn + state_dict :=
  match entries with
  | [] => inr result
  | (key, tensor) :: rest =>
      if ignored ignore_keys key
      then filter_rename_into rest ignore_keys rename_rules result
      else
        let final := rename_key rename_rules key in
        if PyDict.mem final result then inl KeyCollisionError
        else filter_rename_into rest ignore_keys rename_rules
               (PyDict.set final tensor result)
  end.

(** Modelled from the spec: [get_filtered_renamed_state_dict] of
    [util.py], which is not among the sources. Section 4.2: for each key in
    original insertion order, drop it if it matches an ignore rule,
    otherwise apply every rename rule in registration order and insert the
    tensor under the final key; fail with [KeyCollisionError] when a final
    key is already taken. *)
Definition filterRename
    (d : state_dict) (ignore_keys : list string) (rename_rules : pydict string)
  : exn + state_dict :=
  filter_rename_into d ignore_keys rename_rules [].

End FilterRename.

(** *** Precision cast *)

(** Modelled from the spec: the target formats of
    [convert_state_dict_dtype] of [util.py] (section 3: distinguished by
    exponent/mantissa bit split and by whether negative zero and
    infinities are representable). A binary floating-point format has
    [fmt_prec] significant bits, the exponent [fmt_emin] of the last bit
    of its subnormals, the largest finite value
    [fmt_max_m * 2 ^ fmt_max_e], and encodes infinities and a negative
    zero or not. The 8-bit formats are those of the help texts of
    [precision_options]: 4 exponent and 3 mantissa bits or 5 and 2,
    "finite numbers only", "no negative zero". *)
Record float_format : Type := mkFormat {
  fmt_dtype : torch_dtype;
  fmt_prec : Z;
  fmt_emin : Z;
  fmt_max_m : positive;
  fmt_max_e : Z;
  fmt_has_inf : bool;
  fmt_neg_zero : bool
}.

Definition fmt_float16 : float_format :=
  mkFormat torch_float16 11 (-24) 2047 5 true true.
Definition fmt_bfloat16 : float_format :=
  mkFormat torch_bfloat16 8 (-133) 255 120 true true.
Definition fmt_e4m3_fn : float_format :=
  mkFormat torch_float8_e4m3fn 4 (-9) 14 5 false true.
Definition fmt_e4m3_fn_uz : float_format :=
  mkFormat torch_float8_e4m3fnuz 4 (-10) 15 4 false false.
Definition fmt_e5m2 : float_format :=
  mkFormat torch_float8_e5m2 3 (-16) 7 13 true true.
Definition fmt_e5m2_fn_uz : float_format :=
  mkFormat torch_float8_e5m2fnuz 3 (-17) 7 13 false false.

(** The target format of a precision flag; none for [full] and for the
    two quantized kinds, which are no element formats. *)
Definition format_of (p : Precision) : option float_format :=
  match p with
  | prec_float16 => Some fmt_float16
  | prec_bfloat16 => Some fmt_bfloat16
  | prec_float8_e4m3_fn => Some fmt_e4m3_fn
  | prec_float8_e4m3_fn_uz => Some fmt_e4m3_fn_uz
  | prec_float8_e5m2 => Some fmt_e5m2
  | prec_float8_e5m2_fn_uz => Some fmt_e5m2_fn_uz
  | prec_full | prec_nf4 | prec_int8 => None
  end.

(** Modelled from the spec: the rounding of [convert_state_dict_dtype]
    of [util.py] (section 4.3: round to nearest with the target's
    exponent/mantissa layout), ties to even. [m * 2 ^ e] is rounded to
    [prec] significant bits, no bit below [emin]: the rounded mantissa and
    its exponent. *)
Definition round_nearest_even (prec emin : Z) (m : positive) (e : Z) : Z * Z :=
  let e' := Z.max (Z.log2 (Z.pos m) + 1 + e - prec) emin in
  if (e' <=? e)%Z then (Z.pos m * 2 ^ (e - e'), e')%Z
  else (div_round_half_even (Z.pos m) (2 ^ (e' - e)), e').

(** [m1 * 2 ^ e1] against [m2 * 2 ^ e2]. *)
Definition dyadic_compare (m1 e1 m2 e2 : Z) : comparison :=
  let e0 := Z.min e1 e2 in
  (m1 * 2 ^ (e1 - e0) ?= m2 * 2 ^ (e2 - e0))%Z.

Definition max_finite (F : float_format) (s : bool) : spec_float :=
  S754_finite s (fmt_max_m F) (fmt_max_e F).

(** Modelled from the spec: the saturation policy of
    [convert_state_dict_dtype] of [util.py] (section 4.3). Beyond the
    largest finite value: the infinity of a format that has one, the
    largest finite value of that sign otherwise. *)
Definition overflow (F : float_format) (s : bool) : spec_float :=
  if fmt_has_inf F then S754_infinity s else max_finite F s.

(** Modelled from the spec: [convert_state_dict_dtype] of [util.py] on
    one datum: round, then saturate or overflow; a NaN stays a NaN, a zero
    keeps its sign where the format has a negative zero. *)
Definition cast_value (F : float_format) (v : spec_float) : spec_float :=
  match v with
  | S754_nan => S754_nan
  | S754_zero s => S754_zero (s && fmt_neg_zero F)
  | S754_infinity s => overflow F s
  | S754_finite s m e =>
      let '(q, e') := round_nearest_even (fmt_prec F) (fmt_emin F) m e in
      match q with
      | Z.pos q' =>
          match dyadic_compare q e' (Z.pos (fmt_max_m F)) (fmt_max_e F) with
          | Gt => overflow F s
          | _ => S754_finite s q' e'
          end
      | _ => S754_zero (s && fmt_neg_zero F)
      end
  end.

Definition cast_scalar (F : float_format) (x : scalar) : scalar :=
  match x with
  | SFloat v => SFloat (cast_value F v)
  | SInt z => SInt z
  end.

(** Modelled from the spec: [convert_state_dict_dtype] of [util.py] on
    one tensor (section 4.3). Floating-point tensors go to the target
    format; integer, boolean and index tensors pass unchanged. *)
Definition cast_tensor (F : float_format) (t : Tensor) : Tensor :=
  if is_floating_point (dtype t)
  then mkTensor (shape t) (fmt_dtype F) (map (cast_scalar F) (data t))
  else t.

(** Modelled from the spec: [convert_state_dict_dtype] of [util.py], which
    is not among the sources. Section 4.3: every floating-point tensor is
    converted to the target format, round to nearest, with saturation to
    the largest finite value for the formats without infinity and overflow
    to infinity for the others; other tensors pass; [full] is a no-op. The
    quantized kinds are no element format: [convert_to_diffusers] hands
    them to the cast before it quantizes, and the cast lets the tensors
    through. The result is the content of the dict after the call. *)
Definition cast (d : state_dict) (target : Precision) : exn + state_dict :=
  match format_of target with
  | None => inr d
  | Some F => inr (map (fun kv => (fst kv, cast_tensor F (snd kv))) d)
  end.

(** Has [v] a magnitude above the largest finite value of [F]? *)
Definition exceeds (F : float_format) (v : spec_float) : bool :=
  match v with
  | S754_infinity _ => true
  | S754_finite _ m e =>
      match dyadic_compare (Z.pos m) e (Z.pos (fmt_max_m F)) (fmt_max_e F) with
      | Gt => true
      | _ => false
      end
  | _ => false
  end.

(** ** A concrete instance for the examples

    Files hold state dicts. The loader reads the file; filter/rename and
    cast are the stages above, with exact match of ignore rules; the
    splitter takes the text before the first dot of a key as the sub-model
    and the text after it as the key there; the quantizer passes the dict
    through; the writer stores the dict under the path. *)
Definition demo_load (path : string) (files : gmap string state_dict)
  : exn + state_dict :=
  match files !! path with
  | Some d => inr d
  | None => inl LoadError
  end.

Definition demo_split_dict (d : state_dict) : pydict state_dict :=
  fold_left
    (fun acc kv =>
       let '(model_name, _, key) := PyStr.partition "." (fst kv) in
       let bucket :=
         match PyDict.get model_name acc with Some b => b | None => [] end in
       PyDict.set model_name (PyDict.set key (snd kv) bucket) acc)
    d [].

Definition demo_split
    (path : string) (model_type : option string)
    (files : gmap string state_dict)
  : exn + (string * pydict state_dict) :=
  match files !! path with
  | Some d =>
      inr (match model_type with Some m => m | None => "sd15" end,
           demo_split_dict d)
  | None => inl LoadError
  end.

Definition demo_save
    (d : state_dict) (path : string) (files : gmap string state_dict)
  : option exn * gmap string state_dict :=
  (None, <[path := d]> files).

Definition demo_util : Util state_dict :=
  mkUtil demo_load (filterRename String.eqb) cast
    (fun _ => ".safetensors") demo_split
    (fun d _ _ _ => inr d) demo_save (fun s => s) (fun s => s).

(** The same with a writer that fails and leaves the files as they are. *)
Definition failing_save
    (d : state_dict) (path : string) (files : gmap string state_dict)
  : option exn * gmap string state_dict :=
  (Some WriteError, files).

Definition failing_writer_util : Util state_dict :=
  mkUtil demo_load (filterRename String.eqb) cast
    (fun _ => ".safetensors") demo_split
    (fun d _ _ _ => inr d) failing_save (fun s => s) (fun s => s).

Definition tensor_of_shape (sh : list N) : Tensor :=
  mkTensor sh torch_float32 [].

(** Two checkpoints that share the key [shared.weight]. *)
Definition checkpoint_a : state_dict :=
  [("a.weight", tensor_of_shape [1%N]);
   ("shared.weight", tensor_of_shape [2%N])].

Definition checkpoint_b : state_dict :=
  [("shared.weight", tensor_of_shape [3%N]);
   ("b.weight", tensor_of_shape [4%N])].

(** A checkpoint with two sub-models. *)
Definition checkpoint_sd : state_dict :=
  [("unet.conv.weight", tensor_of_shape [4%N; 4%N]);
   ("vae.conv.weight", tensor_of_shape [2%N; 2%N]);
   ("unet.conv.bias", tensor_of_shape [4%N])].

(** The two tensors of the [metadata] example. *)
Definition checkpoint_meta : state_dict :=
  [("w", tensor_of_shape [1000%N; 1000%N]); ("b", tensor_of_shape [500%N])].

Definition empty_world (files : gmap string state_dict) : World state_dict :=
  mkWorld [] files [] [].

(** A world where the output of [convert in.ckpt] is there already. *)
Definition world_with_output : World state_dict :=
  empty_world
    {[ "in.ckpt" := checkpoint_a; "in.safetensors" := checkpoint_b ]}.

(** A world after the split of [checkpoint_sd], where the output of the
    sub-model [unet] is there already. *)
Definition world_after_split : World state_dict :=
  mkWorld
    [ [("conv.weight", tensor_of_shape [4%N; 4%N]);
       ("conv.bias", tensor_of_shape [4%N])];
      [("conv.weight", tensor_of_shape [2%N; 2%N])] ]
    {[ "model.ckpt" := checkpoint_sd;
       "model-unet.safetensors" := checkpoint_a ]}
    [] [EvSplit "model.ckpt"].

(** A dict with a value beyond the range of [float16] and an integer
    tensor. *)
Definition checkpoint_mixed : state_dict :=
  [("scale", mkTensor [2%N] torch_float32
               [SFloat (S754_finite false 3 (-1));
                SFloat (S754_finite true 1 20)]);
   ("index", mkTensor [1%N] torch_int64 [SInt 7])].

(** ** Vocabulary of the statements *)

(** [old] stands in [pre +:+ old] at the end only: the occurrence after
    [pre] is the leftmost one. *)
Definition first_occurrence (old pre : string) : Prop :=
  forall a b, pre +:+ old = a +:+ old +:+ b -> b = "".

(** Decision procedures for the two conditions on occurrences. *)
Fixpoint no_match_before (old pre : string) : bool :=
  match pre with
  | EmptyString => true
  | String _ rest =>
      negb (String.prefix old (pre +:+ old)) && no_match_before old rest
  end.

Fixpoint occurs (old s : string) : bool :=
  String.prefix old s
  || match s with
     | EmptyString => false
     | String _ rest => occurs old rest
     end.

(** The content of [combined_state_dict] after the loop of [combine] over
    inputs with the contents [ds]. *)
Definition merged (ds : list state_dict) : state_dict :=
  fold_left PyDict.update ds [].

(** The sign of a floating-point datum. *)
Definition sf_sign (v : spec_float) : bool :=
  match v with
  | S754_zero s | S754_infinity s | S754_finite s _ _ => s
  | S754_nan => false
  end.

(** The largest finite value of a format has exactly [fmt_prec]
    significant bits and lies on the format's grid. *)
Definition format_ok (F : float_format) : bool :=
  (1 <=? fmt_prec F)%Z &&
  (2 ^ (fmt_prec F - 1) <=? Z.pos (fmt_max_m F))%Z &&
  (Z.pos (fmt_max_m F) <? 2 ^ fmt_prec F)%Z &&
  (fmt_emin F <=? fmt_max_e F)%Z.

(** The finite-only formats: [e4m3-fn], [e4m3-fn-uz], [e5m2-fn-uz]. *)
Definition finite_only_formats : list float_format :=
  [fmt_e4m3_fn; fmt_e4m3_fn_uz; fmt_e5m2_fn_uz].

(** The entries that no ignore rule matches, and an entry under its final
    key. *)
Definition survivors
    (matches : string -> string -> bool) (ignore_keys : list string)
    (d : state_dict) : state_dict :=
  List.filter (fun kv => negb (ignored matches ignore_keys (fst kv))) d.

Definition renamed (rename_rules : pydict string) (kv : string * Tensor)
  : string * Tensor :=
  (rename_key rename_rules (fst kv), snd kv).

(** The keys of a sequence of insertions, in the order of first
    appearance. *)
Definition first_occurrences (ks : list string) : list string :=
  fold_left (fun acc k => if existsb (String.eqb k) acc then acc else acc ++ [k])
    ks [].

(** The references that the split hands to the loop of
    [convert_to_diffusers]: the sub-dicts are allocated one after the
    other, from [n] on. *)
Fixpoint refs_from (n : nat) (subs : pydict state_dict) : pydict loc :=
  match subs with
  | [] => []
  | (model_name, _) :: rest => (model_name, n) :: refs_from (S n) rest
  end.

(** The stages of one output of [convert_to_diffusers], in order; the
    quantizer only for [nf4] and [int8]. *)
Definition quantize_stage (p : Precision) (model_name : string) : list Event :=
  if is_quantization p then [EvQuantize model_name] else [].

Definition output_stages (p : Precision) (model_name output_file : string)
  : list Event :=
  [EvFilterRename; EvCast] ++ quantize_stage p model_name ++
  [EvWrite output_file].

(** The order claimed for [convert-to-diffusers]: filter/rename and cast
    have been applied when the split is made. *)
Definition filter_and_cast_before_split (tr : list Event) : Prop :=
  forall pre input_file post,
    tr = pre ++ EvSplit input_file :: post ->
    In EvFilterRename pre /\ In EvCast pre.

(** What a failed run leaves: the files as they were, or as they were
    without the output file that [--overwrite] has removed. *)
Definition failure_leaves {File : Type}
    (overwrite : bool) (before after : gmap string File) : Prop :=
  after = before \/
  (overwrite = true /\
   exists output_file,
     is_Some (before !! output_file) /\ after = delete output_file before).

(** A writer that writes to completion or not at all. *)
Definition writer_all_or_nothing {File : Type} (U : Util File) : Prop :=
  forall d output_file files e files',
    u_save_file U d output_file files = (Some e, files') -> files' = files.

(** The name of the output: [--name], or the default of the command. *)
Definition output_name (name : option string) (default : string) : string :=
  match name with Some n => n | None => default end.

(** The dict a turn of [convert_to_diffusers] has at hand for the write:
    quantized for [nf4] and [int8]. *)
Definition quantized_or_not {File : Type} (U : Util File)
    (model_type model_name : string) (precision : Precision) (d : state_dict)
  : exn + state_dict :=
  if is_quantization precision
  then u_quantize_state_dict_for_model U d model_type model_name precision
  else inr d.

(** The final keys of the keys [ks]: those that no ignore rule matches,
    renamed, in order. *)
Definition final_keys
    (matches : string -> string -> bool) (ignore_keys : list string)
    (rename_rules : pydict string) (ks : list string) : list string :=
  map (rename_key rename_rules)
    (List.filter (fun k => negb (ignored matches ignore_keys k)) ks).

(** A tensor after the cast to the precision [p]. *)
Definition cast_entry (p : Precision) (t : Tensor) : Tensor :=
  match format_of p with
  | Some F => cast_tensor F t
  | None => t
  end.

(** The dict that a turn of [convert_to_diffusers] hands to the writer for
    the sub-model [model_name] with the dict [d]: filtered and renamed,
    cast, and for [nf4] and [int8] what the quantizer returns. *)
Definition sub_model_dict {File : Type} (U : Util File)
    (model_type : string) (precision : Precision)
    (ignore_key : list string) (replace_keys : pydict string)
    (model_name : string) (d : state_dict) : exn + state_dict :=
  match u_get_filtered_renamed_state_dict U d ignore_key replace_keys with
  | inl e => inl e
  | inr d1 =>
      match u_convert_state_dict_dtype U d1 precision with
      | inl e => inl e
      | inr d2 => quantized_or_not U model_type model_name precision d2
      end
  end.

(** The files after the existence check and the write of [d] to
    [output_file], with the exception of the writer if it raises one. *)
Definition write_output {File : Type} (U : Util File) (overwrite : bool)
    (d : state_dict) (output_file : string) (files : gmap string File)
  : option exn * gmap string File :=
  match files !! output_file with
  | Some _ =>
      if overwrite then u_save_file U d output_file (delete output_file files)
      else (None, files)
  | None => u_save_file U d output_file files
  end.

(** The loop of [convert_to_diffusers] as a function of the files: the
    sub-models of the split in their order, up to the first exception. *)
Fixpoint diffusers_outputs {File : Type} (U : Util File)
    (name model_type : string) (precision : Precision) (overwrite : bool)
    (ignore_key : list string) (replace_keys : pydict string)
    (subs : pydict state_dict) (files : gmap string File)
  : option exn * gmap string File :=
  match subs with
  | [] => (None, files)
  | (model_name, d) :: rest =>
      match sub_model_dict U model_type precision ignore_key replace_keys
              model_name d with
      | inl e => (Some e, files)
      | inr d3 =>
          match write_output U overwrite d3
                  (name +:+ "-" +:+ model_name +:+
                   u_get_extension_for_state_dict U d3) files with
          | (Some e, files') => (Some e, files')
          | (None, files') =>
              diffusers_outputs U name model_type precision overwrite
                ignore_key replace_keys rest files'
          end
      end
  end.

(** ** Vocabulary of the further properties *)

(** A writer that fails on the output of the sub-model [vae] and leaves
    the files as they are, and writes every other file. *)
Definition vae_failing_save
    (d : state_dict) (path : string) (files : gmap string state_dict)
  : option exn * gmap string state_dict :=
  if String.eqb path "model-vae.safetensors"
  then (Some WriteError, files)
  else (None, <[path := d]> files).

Definition vae_failing_util : Util state_dict :=
  mkUtil demo_load (filterRename String.eqb) cast
    (fun _ => ".safetensors") demo_split
    (fun d _ _ _ => inr d) vae_failing_save (fun s => s) (fun s => s).

(** The ways the write of one output ends, from the world [w] to the
    result [r]: a failure before the existence check; an output that is
    there and is kept; the call of the writer, on a path that is absent
    by then. [stem] is the output name without its extension, [closing]
    what is printed after the writer has returned. *)
Definition write_outcome {File : Type} (U : Util File)
    (overwrite : bool) (stem : string) (closing : list string)
    (w : World File) (r : (exn + unit) * World File) : Prop :=
  (exists e, fst r = inl e /\ out (snd r) = out w /\ fs (snd r) = fs w)
  \/
  (exists d,
     let output_file := stem +:+ u_get_extension_for_state_dict U d in
     fst r = inr tt /\ overwrite = false /\
     is_Some (fs w !! output_file) /\
     out (snd r) = out w ++ [exists_message output_file] /\
     fs (snd r) = fs w)
  \/
  (exists d,
     let output_file := stem +:+ u_get_extension_for_state_dict U d in
     (overwrite = true \/ fs w !! output_file = None) /\
     fs (snd r)
     = snd (u_save_file U d output_file (delete output_file (fs w))) /\
     match fst (u_save_file U d output_file (delete output_file (fs w))) with
     | Some e =>
         fst r = inl e /\
         out (snd r) = out w ++ ["Writing " +:+ output_file]
     | None =>
         fst r = inr tt /\
         out (snd r) = out w ++ ("Writing " +:+ output_file) :: closing
     end).

(** A line that a turn of [convert_to_diffusers] prints for the sub-model
    [model_name]. *)
Definition sub_model_line (name model_name line : string) : Prop :=
  exists extension,
    let output_file := name +:+ "-" +:+ model_name +:+ extension in
    line = exists_message output_file \/ line = "Writing " +:+ output_file.


(** The sum of the element counts of the tensors of a dict. *)
Definition total_params (d : state_dict) : N :=
  fold_right N.add 0%N (map (fun kv => numel (snd kv)) d).

(** [x] divided by 1000, [k] times, as the loop of [metadata] does it. *)
Definition div1000 (k : nat) (x : float) : float :=
  Nat.iter k (fun y => (y / 1000)%float) x.

(** Is the abbreviation of every count below [bound] the count itself? *)
Definition plain_below (bound : nat) : bool :=
  forallb
    (fun n =>
       match abbreviate (N.of_nat n) with
       | inr s => String.eqb s (PyStr.str_of_N (N.of_nat n))
       | inl _ => false
       end)
    (seq 0 bound).

(** ** Strings *)

Lemma str_app_nil_l (s : string) : "" +:+ s = s.
Proof. reflexivity. Qed.

Lemma str_app_cons (c : ascii) (a b : string) :
  String c a +:+ b = String c (a +:+ b).
Proof. reflexivity. Qed.

Lemma str_app_nil_r (s : string) : s +:+ "" = s.
Proof. induction s as [|c s IH]; str_norm; [reflexivity | now rewrite IH]. Qed.

Lemma str_app_assoc (a b c : string) : (a +:+ b) +:+ c = a +:+ (b +:+ c).
Proof. induction a as [|x a IH]; str_norm; [reflexivity | now rewrite IH]. Qed.

Lemma str_length_app (a b : string) :
  String.length (a +:+ b) = String.length a + String.length b.
Proof.
  induction a as [|x a IH]; str_norm; [reflexivity | simpl; now rewrite IH].
Qed.

Lemma prefix_true_iff (p s : string) :
  String.prefix p s = true <-> exists t, s = p +:+ t.
Proof.
  revert s. induction p as [|c p IH]; intros s.
  - destruct s; simpl; (split; [intros _; eexists; reflexivity | reflexivity]).
  - destruct s as [|d s]; simpl.
    + split; [discriminate | intros [t Ht]; discriminate].
    + destruct (ascii_dec c d) as [->|Hne].
      * rewrite IH. split; intros [t Ht]; exists t; str_norm;
          [now rewrite Ht | now injection Ht].
      * split; [discriminate | intros [t Ht]; str_norm; injection Ht; intros; congruence].
Qed.

Lemma prefix_app_self (p t : string) : String.prefix p (p +:+ t) = true.
Proof. apply prefix_true_iff. now exists t. Qed.

(** Splitting [a +:+ b = c +:+ d] when [c] is not longer than [a]. *)
Lemma str_app_eq_split (a b c d : string) :
  a +:+ b = c +:+ d -> String.length c <= String.length a ->
  exists r, a = c +:+ r /\ d = r +:+ b.
Proof.
  revert c. induction a as [|x a IH]; intros c H Hlen.
  - destruct c; simpl in Hlen; [|lia]. exists "". str_norm. split; [reflexivity | now symmetry].
  - destruct c as [|y c]; str_norm.
    + exists (String x a). split; [reflexivity | now symmetry].
    + injection H as -> H. simpl in Hlen. destruct (IH c H ltac:(lia)) as (r & -> & ->).
      now exists r.
Qed.

Lemma partition_no_sep (sep : ascii) (s : string) :
  PyStr.contains_char sep s = false ->
  PyStr.partition sep s = (s, "", "").
Proof.
  induction s as [|c s IH]; simpl; [reflexivity|].
  intros H. apply orb_false_iff in H as [Hc Hs].
  rewrite Hc, (IH Hs). reflexivity.
Qed.

Lemma partition_first_sep (sep : ascii) (a b : string) :
  PyStr.contains_char sep a = false ->
  PyStr.partition sep (a +:+ String sep b) = (a, String sep "", b).
Proof.
  induction a as [|c a IH]; str_norm; simpl.
  - intros _. now rewrite Ascii.eqb_refl.
  - intros H. apply orb_false_iff in H as [Hc Hs].
    rewrite Hc, (IH Hs). reflexivity.
Qed.

Lemma replace_scan_skip (old new t post : string) :
  PyStr.replace_scan old new (t +:+ post) (String.length t) =
  PyStr.replace_scan old new post 0.
Proof.
  induction t as [|c t IH]; str_norm; simpl; [|exact IH].
  destruct post; reflexivity.
Qed.

Lemma first_occurrence_tail (old : string) (c : ascii) (pre : string) :
  first_occurrence old (String c pre) -> first_occurrence old pre.
Proof.
  intros H a b E. apply (H (String c a) b). str_norm. now rewrite E.
Qed.

Lemma replace_scan_first (old new pre post : string) :
  old <> "" -> first_occurrence old pre ->
  PyStr.replace_scan old new (pre +:+ old +:+ post) 0 =
  pre +:+ new +:+ PyStr.replace_scan old new post 0.
Proof.
  intros Hne. induction pre as [|c pre IH]; intros Hfirst.
  - destruct old as [|x old]; [congruence|].
    str_norm. cbn [PyStr.replace_scan].
    rewrite <- str_app_cons.
    rewrite prefix_app_self. cbn [String.length].
    replace (S (String.length old) - 1) with (String.length old) by lia.
    now rewrite replace_scan_skip.
  - rewrite !str_app_cons. cbn [PyStr.replace_scan].
    destruct (String.prefix old (String c (pre +:+ old +:+ post))) eqn:Hp.
    + exfalso. apply prefix_true_iff in Hp as [t Ht].
      rewrite <- str_app_cons, <- str_app_assoc in Ht.
      destruct (str_app_eq_split _ _ _ _ Ht) as (r & Hr & _).
      { rewrite str_length_app. lia. }
      specialize (Hfirst "" r Hr). subst r.
      rewrite str_app_nil_r in Hr. apply (f_equal String.length) in Hr.
      rewrite str_length_app in Hr. simpl in Hr. lia.
    + rewrite IH; [reflexivity | eapply first_occurrence_tail; eassumption].
Qed.

Lemma replace_scan_absent (old new s : string) :
  (forall a b, s <> a +:+ old +:+ b) ->
  PyStr.replace_scan old new s 0 = s.
Proof.
  induction s as [|c s IH]; intros Habs; [reflexivity|].
  cbn [PyStr.replace_scan].
  destruct (String.prefix old (String c s)) eqn:Hp.
  - exfalso. apply prefix_true_iff in Hp as [t Ht]. now apply (Habs "" t).
  - rewrite IH; [reflexivity|]. intros a b E. apply (Habs (String c a) b).
    str_norm. now rewrite E.
Qed.

Lemma no_match_before_spec (old pre : string) :
  no_match_before old pre = true -> first_occurrence old pre.
Proof.
  induction pre as [|c pre IH]; intros Hb a b E.
  - str_norm. destruct a as [|x a]; str_norm.
    + apply (f_equal String.length) in E. rewrite str_length_app in E.
      destruct b; [reflexivity | simpl in E; lia].
    + apply (f_equal String.length) in E. simpl in E.
      rewrite !str_length_app in E. lia.
  - cbn [no_match_before] in Hb. apply andb_true_iff in Hb as [Hp Hrest].
    destruct a as [|x a]; str_norm.
    + exfalso. apply negb_true_iff in Hp.
      rewrite (proj2 (prefix_true_iff old _)) in Hp; [discriminate|].
      exists b. exact E.
    + injection E as _ E. now apply (IH Hrest a b).
Qed.

Lemma occurs_spec (old s : string) :
  occurs old s = false -> forall a b, s <> a +:+ old +:+ b.
Proof.
  induction s as [|c s IH]; intros Hocc a b E.
  - cbn [occurs] in Hocc. apply orb_false_iff in Hocc as [Hp _].
    destruct a; str_norm; [|discriminate].
    rewrite (proj2 (prefix_true_iff old _)) in Hp; [discriminate|].
    now exists b.
  - cbn [occurs] in Hocc. apply orb_false_iff in Hocc as [Hp Hrest].
    destruct a as [|x a]; str_norm.
    + rewrite (proj2 (prefix_true_iff old _)) in Hp; [discriminate|].
      now exists b.
    + injection E as _ E. now apply (IH Hrest a b).
Qed.

(** ** Dictionaries *)
Section DictFacts.
Context {V : Type}.
Implicit Types (d : pydict V) (k : string) (v : V).

Lemma dict_get_set_eq k v d : PyDict.get k (PyDict.set k v d) = Some v.
Proof.
  induction d as [|[k' v'] d IH]; simpl.
  - now rewrite String.eqb_refl.
  - destruct (String.eqb k' k) eqn:E; simpl; rewrite E; [reflexivity | exact IH].
Qed.

Lemma dict_get_set_ne k k' v d :
  k <> k' -> PyDict.get k' (PyDict.set k v d) = PyDict.get k' d.
Proof.
  intros Hne. induction d as [|[k0 v0] d IH]; simpl.
  - apply String.eqb_neq in Hne. now rewrite Hne.
  - destruct (String.eqb k0 k) eqn:E; simpl.
    + apply String.eqb_eq in E. subst k0.
      apply String.eqb_neq in Hne. now rewrite Hne.
    + now rewrite IH.
Qed.

Lemma dict_get_none_keys k d : PyDict.get k d = None <-> k ∉ PyDict.keys d.
Proof.
  induction d as [|[k0 v0] d IH]; simpl.
  - split; [intros _ H; inversion H | reflexivity].
  - destruct (String.eqb_spec k0 k) as [->|Hne].
    + split; [discriminate | intros H; exfalso; apply H; left].
    + rewrite IH. rewrite not_elem_of_cons. split; [intros H; split; congruence | tauto].
Qed.

Lemma dict_keys_set k v d :
  PyDict.keys (PyDict.set k v d) =
  if PyDict.mem k d then PyDict.keys d else PyDict.keys d ++ [k].
Proof.
  unfold PyDict.mem. induction d as [|[k0 v0] d IH]; simpl; [reflexivity|].
  destruct (String.eqb k0 k) eqn:E; simpl; [reflexivity|].
  rewrite IH. now destruct (PyDict.get k d).
Qed.

Lemma dict_set_nodup k v d :
  NoDup (PyDict.keys d) -> NoDup (PyDict.keys (PyDict.set k v d)).
Proof.
  intros Hnd. rewrite dict_keys_set. unfold PyDict.mem.
  destruct (PyDict.get k d) eqn:E; [exact Hnd|].
  apply dict_get_none_keys in E. apply NoDup_app. repeat split.
  - exact Hnd.
  - intros x Hx Hx'. apply list_elem_of_singleton in Hx'. now subst.
  - apply NoDup_singleton.
Qed.

Lemma dict_update_cons d k v other :
  PyDict.update d ((k, v) :: other) = PyDict.update (PyDict.set k v d) other.
Proof. reflexivity. Qed.

Lemma dict_update_app d o1 o2 :
  PyDict.update d (o1 ++ o2) = PyDict.update (PyDict.update d o1) o2.
Proof. unfold PyDict.update. apply fold_left_app. Qed.

Lemma dict_update_nodup d other :
  NoDup (PyDict.keys d) -> NoDup (PyDict.keys (PyDict.update d other)).
Proof.
  revert d. induction other as [|[k v] other IH]; intros d Hnd; [exact Hnd|].
  rewrite dict_update_cons. apply IH. now apply dict_set_nodup.
Qed.

(** A key the other dict has not keeps its value. *)
Lemma dict_get_update_absent k d other :
  PyDict.get k other = None ->
  PyDict.get k (PyDict.update d other) = PyDict.get k d.
Proof.
  revert d. induction other as [|[k0 v0] other IH]; intros d Hk; [reflexivity|].
  simpl in Hk. destruct (String.eqb_spec k0 k) as [->|Hne]; [discriminate|].
  rewrite dict_update_cons, (IH _ Hk). now apply dict_get_set_ne.
Qed.

(** A key of the other dict gets its value there. *)
Lemma dict_get_update_present k v d other :
  NoDup (PyDict.keys other) ->
  PyDict.get k other = Some v ->
  PyDict.get k (PyDict.update d other) = Some v.
Proof.
  revert d. induction other as [|[k0 v0] other IH]; intros d Hnd Hk; [discriminate|].
  simpl in Hk, Hnd. apply NoDup_cons in Hnd as [Hk0 Hnd].
  rewrite dict_update_cons.
  destruct (String.eqb_spec k0 k) as [->|Hne].
  - injection Hk as ->. rewrite dict_get_update_absent.
    + apply dict_get_set_eq.
    + now apply dict_get_none_keys.
  - now apply IH.
Qed.

End DictFacts.

(** *** Merging a list of dicts *)

Lemma merged_from_absent {V : Type} (K : string) (post : list (pydict V)) :
  forall acc,
  Forall (fun d => PyDict.get K d = None) post ->
  PyDict.get K (fold_left PyDict.update post acc) = PyDict.get K acc.
Proof.
  induction post as [|d post IH]; intros acc Hall; [reflexivity|].
  apply Forall_cons in Hall as [Hd Hall].
  cbn [fold_left]. rewrite IH by exact Hall. now apply dict_get_update_absent.
Qed.

(** The value of a key after the merge is its value in the last dict that
    has it. *)
Lemma merged_last {V : Type} (ds : list (pydict V)) (acc : pydict V)
    (K : string) (j : nat) (dj : pydict V) (v : V) :
  ds !! j = Some dj ->
  NoDup (PyDict.keys dj) ->
  PyDict.get K dj = Some v ->
  (forall j' d', j < j' -> ds !! j' = Some d' -> PyDict.get K d' = None) ->
  PyDict.get K (fold_left PyDict.update ds acc) = Some v.
Proof.
  intros Hj Hnd Hv Hlater.
  rewrite <- (take_drop_middle ds j dj Hj).
  rewrite fold_left_app. cbn [fold_left].
  rewrite merged_from_absent.
  - now apply dict_get_update_present.
  - apply Forall_lookup_2. intros i d' Hi.
    rewrite lookup_drop in Hi. apply (Hlater (S j + i) d'); [lia | exact Hi].
Qed.


(** ** Running the commands *)

Section Runs.
Context {File : Type} (U : Util File).
Implicit Types (w : World File) (d : state_dict) (r : loc).

Lemma bind_run {A B : Type} (m : M A) (k : A -> M B) w :
  bind m k w =
  match m w with
  | (inl e, w') => (inl e, w')
  | (inr a, w') => k a w'
  end.
Proof. reflexivity. Qed.

Lemma heap_lookup_alloc (h : list state_dict) d : (h ++ [d]) !! length h = Some d.
Proof. now apply list_lookup_middle. Qed.

Lemma heap_lookup_old (h : list state_dict) d d' r :
  h !! r = Some d -> (h ++ [d']) !! r = Some d.
Proof. intros H. rewrite lookup_app_l; [exact H | eapply lookup_lt_Some; eassumption]. Qed.

Lemma heap_lookup_store (h : list state_dict) d d' r :
  h !! r = Some d -> <[r := d']> h !! r = Some d'.
Proof. intros H. apply list_lookup_insert_eq. eapply lookup_lt_Some; eassumption. Qed.

Lemma load_state_dict_run input_file w :
  load_state_dict U input_file w =
  match u_load_state_dict U input_file (fs w) with
  | inl e =>
      (inl e, mkWorld (heap w) (fs w) (out w) (trace w ++ [EvLoad input_file]))
  | inr d =>
      (inr (length (heap w)),
       mkWorld (heap w ++ [d]) (fs w) (out w) (trace w ++ [EvLoad input_file]))
  end.
Proof.
  unfold load_state_dict, bind, log. cbn [fs heap out trace].
  destruct (u_load_state_dict U input_file (fs w)); reflexivity.
Qed.

Lemma get_filtered_renamed_state_dict_run r ignore_keys replace_keys w d :
  heap w !! r = Some d ->
  get_filtered_renamed_state_dict U r ignore_keys replace_keys w =
  match u_get_filtered_renamed_state_dict U d ignore_keys replace_keys with
  | inl e => (inl e, mkWorld (heap w) (fs w) (out w) (trace w ++ [EvFilterRename]))
  | inr d' =>
      (inr (length (heap w)),
       mkWorld (heap w ++ [d']) (fs w) (out w) (trace w ++ [EvFilterRename]))
  end.
Proof.
  intros Hr. unfold get_filtered_renamed_state_dict, bind, log, deref.
  cbn [fs heap out trace]. rewrite Hr.
  destruct (u_get_filtered_renamed_state_dict U d ignore_keys replace_keys);
    reflexivity.
Qed.

Lemma convert_state_dict_dtype_run r precision w d :
  heap w !! r = Some d ->
  convert_state_dict_dtype U r precision w =
  match u_convert_state_dict_dtype U d precision with
  | inl e => (inl e, mkWorld (heap w) (fs w) (out w) (trace w ++ [EvCast]))
  | inr d' =>
      (inr tt, mkWorld (<[r := d']> (heap w)) (fs w) (out w) (trace w ++ [EvCast]))
  end.
Proof.
  intros Hr. unfold convert_state_dict_dtype, bind, log, deref.
  cbn [fs heap out trace]. rewrite Hr.
  destruct (u_convert_state_dict_dtype U d precision); reflexivity.
Qed.

Lemma quantize_state_dict_for_model_run r model_type model_name precision w d :
  heap w !! r = Some d ->
  quantize_state_dict_for_model U r model_type model_name precision w =
  match u_quantize_state_dict_for_model U d model_type model_name precision with
  | inl e =>
      (inl e,
       mkWorld (heap w) (fs w) (out w) (trace w ++ [EvQuantize model_name]))
  | inr d' =>
      (inr (length (heap w)),
       mkWorld (heap w ++ [d']) (fs w) (out w)
         (trace w ++ [EvQuantize model_name]))
  end.
Proof.
  intros Hr. unfold quantize_state_dict_for_model, bind, log, deref.
  cbn [fs heap out trace]. rewrite Hr.
  destruct (u_quantize_state_dict_for_model U d model_type model_name precision);
    reflexivity.
Qed.

Lemma get_extension_for_state_dict_run r w d :
  heap w !! r = Some d ->
  get_extension_for_state_dict U r w =
  (inr (u_get_extension_for_state_dict U d), w).
Proof.
  intros Hr. unfold get_extension_for_state_dict, bind, deref. now rewrite Hr.
Qed.

Lemma save_file_run r output_file w d :
  heap w !! r = Some d ->
  save_file U r output_file w =
  (match fst (u_save_file U d output_file (fs w)) with
   | Some e => inl e
   | None => inr tt
   end,
   mkWorld (heap w) (snd (u_save_file U d output_file (fs w))) (out w)
     (trace w ++ [EvWrite output_file])).
Proof.
  intros Hr. unfold save_file, bind, log, deref. cbn [fs heap out trace].
  rewrite Hr. cbn [fs heap out trace].
  destruct (u_save_file U d output_file (fs w)) as [[e|] fs']; reflexivity.
Qed.

Lemma check_output_run output_file overwrite w :
  check_output output_file overwrite w =
  match fs w !! output_file with
  | Some _ =>
      if overwrite
      then (inr true,
            mkWorld (heap w) (delete output_file (fs w)) (out w) (trace w))
      else (inr false,
            mkWorld (heap w) (fs w) (out w ++ [exists_message output_file])
              (trace w))
  | None => (inr true, w)
  end.
Proof.
  unfold check_output, bind, os_path_exists, os_remove, echo, ret.
  destruct (fs w !! output_file) eqn:E.
  - rewrite bool_decide_eq_true_2 by eauto. destruct overwrite.
    + cbn [fs]. now rewrite E.
    + reflexivity.
  - rewrite bool_decide_eq_false_2; [reflexivity|].
    intros [x Hx]. discriminate.
Qed.

Lemma dict_update_in_place_run (target other : loc) w d o :
  heap w !! target = Some d -> heap w !! other = Some o ->
  dict_update_in_place target other w =
  (inr tt,
   mkWorld (<[target := PyDict.update d o]> (heap w)) (fs w) (out w) (trace w)).
Proof.
  intros Ht Ho. unfold dict_update_in_place, bind, deref, store.
  rewrite Ht. cbv beta iota. now rewrite Ho.
Qed.

Lemma deref_run r w d : heap w !! r = Some d -> deref r w = (inr d, w).
Proof. intros Hr. unfold deref. now rewrite Hr. Qed.

Lemma echo_run (line : string) w :
  echo line w = (inr tt, mkWorld (heap w) (fs w) (out w ++ [line]) (trace w)).
Proof. reflexivity. Qed.

Lemma ret_run {A : Type} (a : A) w : ret a w = (inr a, w).
Proof. reflexivity. Qed.

Lemma for_each_cons {A : Type} (x : A) (rest : list A) (body : A -> M unit) w :
  for_each (x :: rest) body w =
  match body x w with
  | (inl e, w') => (inl e, w')
  | (inr _, w') => for_each rest body w'
  end.
Proof. reflexivity. Qed.

End Runs.

(** Symbolic execution of a command: one stage at a time, one case per
    outcome of a helper. *)
Ltac solve_heap :=
  cbn [heap];
  first
    [ eassumption
    | apply heap_lookup_alloc
    | eapply heap_lookup_store; solve_heap
    | eapply heap_lookup_old; solve_heap ].

Ltac heap_length :=
  repeat first [rewrite length_insert | rewrite length_app];
  cbn [length]; lia.

Ltac run_prim U :=
  first
    [ rewrite (load_state_dict_run U)
    | erewrite (get_filtered_renamed_state_dict_run U) by solve_heap
    | erewrite (convert_state_dict_dtype_run U) by solve_heap
    | erewrite (quantize_state_dict_for_model_run U) by solve_heap
    | erewrite (get_extension_for_state_dict_run U) by solve_heap
    | erewrite (save_file_run U) by solve_heap
    | erewrite dict_update_in_place_run by solve_heap
    | erewrite deref_run by solve_heap
    | rewrite check_output_run
    | rewrite echo_run
    | rewrite ret_run ].

Ltac run_split :=
  match goal with
  | |- context [match u_load_state_dict ?U ?f ?s with _ => _ end] =>
      destruct (u_load_state_dict U f s) eqn:?
  | |- context [match u_get_filtered_renamed_state_dict ?U ?d ?i ?k with _ => _ end] =>
      destruct (u_get_filtered_renamed_state_dict U d i k) eqn:?
  | |- context [match u_convert_state_dict_dtype ?U ?d ?p with _ => _ end] =>
      destruct (u_convert_state_dict_dtype U d p) eqn:?
  | |- context [match u_quantize_state_dict_for_model ?U ?d ?a ?b ?p with _ => _ end] =>
      destruct (u_quantize_state_dict_for_model U d a b p) eqn:?
  | |- context [match fst (u_save_file ?U ?d ?o ?s) with _ => _ end] =>
      destruct (u_save_file U d o s) as [[?|] ?] eqn:?
  | |- context [match ?m !! ?o with Some _ => _ | None => _ end] =>
      destruct (m !! o) eqn:?
  | |- context [if ?b then _ else _] => is_var b; destruct b
  end.

Ltac run_known :=
  match goal with
  | H : ?x = inr _ |- context [match ?x with _ => _ end] => rewrite H
  | H : ?x = Some _ |- context [match ?x with _ => _ end] => rewrite H
  | H : ?x = None |- context [match ?x with _ => _ end] => rewrite H
  end.

Ltac run_step U :=
  first
    [ rewrite bind_run; run_prim U
    | run_prim U
    | progress cbn [fs heap out trace fst snd]
    | progress cbv beta iota
    | run_known
    | run_split ].

Ltac run U := repeat run_step U.

Section MergeRuns.
Context {File : Type} (U : Util File).
Implicit Types (w : World File) (d : state_dict) (r : loc).

Lemma merge_loop_run r (files : list string) (ds : list state_dict) :
  forall fs0 w acc,
  Forall2 (fun f d => u_load_state_dict U f fs0 = inr d) files ds ->
  fs w = fs0 ->
  heap w !! r = Some acc ->
  exists w',
    for_each files
      (fun input_file =>
         bind (load_state_dict U input_file)
           (fun state_dict => dict_update_in_place r state_dict)) w
    = (inr tt, w') /\
    heap w' !! r = Some (fold_left PyDict.update ds acc) /\
    fs w' = fs0 /\ out w' = out w /\
    trace w' = trace w ++ map EvLoad files.
Proof.
  intros fs0 w acc Hall. revert w acc.
  induction Hall as [|f d files ds Hload Hall IH]; intros w acc Hfs0 Hr.
  - exists w. simpl. rewrite app_nil_r. auto.
  - rewrite for_each_cons, bind_run, load_state_dict_run, Hfs0, Hload.
    erewrite dict_update_in_place_run by solve_heap.
    match goal with |- context [for_each files _ ?w1] =>
      destruct (IH w1 (PyDict.update acc d)) as (w' & Hrun & Hh & Hfs & Hout & Htr)
    end.
    { reflexivity. }
    { solve_heap. }
    exists w'. rewrite Hrun. cbn [fs heap out trace] in *.
    repeat split; try assumption.
    cbn [map]. rewrite Htr, <- app_assoc. reflexivity.
Qed.

Lemma load_combined_run (files : list string) (ds : list state_dict) w :
  Forall2 (fun f d => u_load_state_dict U f (fs w) = inr d) files ds ->
  exists w',
    load_combined U files w = (inr (length (heap w)), w') /\
    heap w' !! length (heap w) = Some (merged ds) /\
    fs w' = fs w /\ out w' = out w /\
    trace w' = trace w ++ map EvLoad files.
Proof.
  intros Hall. unfold load_combined. rewrite bind_run. unfold alloc at 1.
  rewrite bind_run.
  match goal with |- context [for_each files _ ?w1] =>
    destruct (merge_loop_run (length (heap w)) files ds (fs w) w1 []) as
      (w' & Hrun & Hh & Hfs & Hout & Htr)
  end.
  { exact Hall. }
  { reflexivity. }
  { solve_heap. }
  exists w'. rewrite Hrun, ret_run. cbn [fs heap out trace] in *. auto.
Qed.

(** The loop whatever the loads do: it touches neither the files nor the
    console, and has called the loader on the inputs in order, up to the
    first failure. *)
Lemma merge_loop_general r (files : list string) :
  forall w acc,
  heap w !! r = Some acc ->
  exists res w' n,
    for_each files
      (fun input_file =>
         bind (load_state_dict U input_file)
           (fun state_dict => dict_update_in_place r state_dict)) w
    = (res, w') /\
    fs w' = fs w /\ out w' = out w /\
    trace w' = trace w ++ map EvLoad (take n files) /\
    (res = inr tt -> take n files = files /\ exists acc', heap w' !! r = Some acc').
Proof.
  induction files as [|f files IH]; intros w acc Hr.
  - exists (inr tt), w, 0. cbn. rewrite app_nil_r. eauto 10.
  - rewrite for_each_cons, bind_run, load_state_dict_run.
    destruct (u_load_state_dict U f (fs w)) as [e|d].
    + eexists (inl e), _, 1. cbn [take map fs out trace].
      rewrite take_0. repeat split; discriminate.
    + erewrite dict_update_in_place_run by solve_heap.
      match goal with |- context [for_each files _ ?w1] =>
        destruct (IH w1 (PyDict.update acc d))
          as (res & w' & n & Hrun & Hfs & Hout & Htr & Hok)
      end.
      { solve_heap. }
      exists res, w', (S n). rewrite Hrun. cbn [fs heap out trace] in *.
      repeat split; try assumption.
      * cbn [take map]. rewrite Htr, <- app_assoc. reflexivity.
      * cbn [take]. f_equal. now apply Hok.
      * now apply Hok.
Qed.

Lemma load_combined_general (files : list string) w :
  exists res w' n,
    load_combined U files w = (res, w') /\
    fs w' = fs w /\ out w' = out w /\
    trace w' = trace w ++ map EvLoad (take n files) /\
    (forall r, res = inr r ->
       take n files = files /\ exists d, heap w' !! r = Some d).
Proof.
  unfold load_combined. rewrite bind_run. unfold alloc at 1.
  rewrite bind_run.
  match goal with |- context [for_each files _ ?w1] =>
    destruct (merge_loop_general (length (heap w)) files w1 [])
      as (res & w' & n & Hrun & Hfs & Hout & Htr & Hok)
  end.
  { solve_heap. }
  rewrite Hrun. cbn [fs heap out trace] in *.
  destruct res as [e|[]].
  - exists (inl e), w', n. repeat split; try assumption; discriminate.
  - rewrite ret_run. exists (inr (length (heap w))), w', n.
    split; [reflexivity|]. repeat (split; [assumption|]).
    intros r Hres. injection Hres as <-. now apply Hok.
Qed.

End MergeRuns.


(** ** Rounding and saturation *)

Section Rounding.
Local Open Scope Z_scope.

Lemma dyadic_compare_scale (m1 e1 m2 e2 c : Z) :
  c <= e1 -> c <= e2 ->
  dyadic_compare m1 e1 m2 e2 = (m1 * 2 ^ (e1 - c) ?= m2 * 2 ^ (e2 - c)).
Proof.
  intros H1 H2. unfold dyadic_compare.
  set (e0 := Z.min e1 e2).
  assert (Hc : c <= e0) by (unfold e0; lia).
  replace (e1 - c) with ((e1 - e0) + (e0 - c)) by lia.
  replace (e2 - c) with ((e2 - e0) + (e0 - c)) by lia.
  rewrite !Z.pow_add_r by (unfold e0; lia).
  rewrite !Z.mul_assoc.
  apply Zmult_compare_compat_r.
  apply Z.lt_gt, Z.pow_pos_nonneg; lia.
Qed.

Lemma dyadic_compare_refl (m e : Z) : dyadic_compare m e m e = Eq.
Proof. unfold dyadic_compare. apply Z.compare_refl. Qed.

Lemma div_round_half_even_lower (num den : Z) :
  0 < den -> num / den <= div_round_half_even num den.
Proof.
  intros Hden. unfold div_round_half_even.
  destruct (2 * (num mod den) <? den); [lia|].
  destruct (den <? 2 * (num mod den)); [lia|].
  destruct (Z.even (num / den)); lia.
Qed.

Lemma log2_bounds (m : positive) :
  2 ^ Z.log2 (Z.pos m) <= Z.pos m < 2 ^ (Z.log2 (Z.pos m) + 1).
Proof.
  pose proof (Z.log2_spec (Z.pos m) ltac:(lia)) as H.
  now rewrite <- Z.add_1_r in H.
Qed.

(** Above the largest finite value, rounding does not go below it; it
    reaches it only in its own representation. *)
Lemma round_above_max (prec emin : Z) (M : positive) (E : Z)
    (m : positive) (e : Z) :
  1 <= prec -> 2 ^ (prec - 1) <= Z.pos M < 2 ^ prec -> emin <= E ->
  dyadic_compare (Z.pos m) e (Z.pos M) E = Gt ->
  let '(q, e') := round_nearest_even prec emin m e in
  0 < q /\
  (dyadic_compare q e' (Z.pos M) E = Gt \/
   (q = Z.pos M /\ e' = E)).
Proof.
  intros Hprec [HMlo HMhi] Hemin Hgt.
  pose proof (log2_bounds m) as [Hlo Hhi].
  pose proof (Z.log2_nonneg (Z.pos m)) as HL.
  set (L := Z.log2 (Z.pos m) + 1) in *.
  (* the exponent of the rounded value is not below E *)
  assert (HE : E <= L + e - prec).
  { set (c := Z.min e E).
    rewrite (dyadic_compare_scale _ _ _ _ c) in Hgt by (unfold c; lia).
    apply Z.compare_gt_iff in Hgt.
    assert (H1 : Z.pos m * 2 ^ (e - c) < 2 ^ (L + (e - c))).
    { rewrite Z.pow_add_r by (unfold c, L; lia).
      apply Z.mul_lt_mono_pos_r; [apply Z.pow_pos_nonneg; unfold c; lia | exact Hhi]. }
    assert (H2 : 2 ^ (prec - 1 + (E - c)) <= Z.pos M * 2 ^ (E - c)).
    { rewrite Z.pow_add_r by (unfold c; lia).
      apply Z.mul_le_mono_nonneg_r; [apply Z.pow_nonneg; lia | exact HMlo]. }
    assert (H3 : 2 ^ (prec - 1 + (E - c)) < 2 ^ (L + (e - c))) by lia.
    apply Z.pow_lt_mono_r_iff in H3; unfold c, L in *; lia. }
  unfold round_nearest_even. fold L.
  rewrite Z.max_l by lia.
  set (e' := L + e - prec) in *.
  destruct (e' <=? e) eqn:Hcase.
  - apply Z.leb_le in Hcase. split.
    + apply Z.mul_pos_pos; [lia | apply Z.pow_pos_nonneg; lia].
    + left.
      rewrite (dyadic_compare_scale _ _ _ _ E) by lia.
      rewrite (dyadic_compare_scale _ _ _ _ E) in Hgt by lia.
      rewrite <- Z.mul_assoc, <- Z.pow_add_r by lia.
      now replace (e - e' + (e' - E)) with (e - E) by lia.
  - apply Z.leb_gt in Hcase.
    set (d := e' - e) in *.
    assert (Hd : 0 < d) by (unfold d; lia).
    assert (Hpow : 0 < 2 ^ d) by (apply Z.pow_pos_nonneg; lia).
    pose proof (div_round_half_even_lower (Z.pos m) (2 ^ d) Hpow) as Hq.
    set (q := div_round_half_even (Z.pos m) (2 ^ d)) in *.
    assert (Hq0 : 2 ^ (prec - 1) <= Z.pos m / 2 ^ d).
    { apply Z.div_le_lower_bound; [exact Hpow|].
      rewrite <- Z.pow_add_r by lia.
      replace (d + (prec - 1)) with (L - 1) by (unfold d, e'; lia).
      now replace (L - 1) with (Z.log2 (Z.pos m)) by (unfold L; lia). }
    assert (Hpp : 0 < 2 ^ (prec - 1)) by (apply Z.pow_pos_nonneg; lia).
    split; [lia|].
    destruct (Z.eq_dec e' E) as [Heq|Hne].
    + (* same binade as the largest finite value *)
      rewrite (dyadic_compare_scale _ _ _ _ e) in Hgt by lia.
      rewrite Z.sub_diag, Z.mul_1_r in Hgt. apply Z.compare_gt_iff in Hgt.
      replace (E - e) with d in Hgt by (unfold d; lia).
      assert (HqM : Z.pos M <= Z.pos m / 2 ^ d).
      { apply Z.div_le_lower_bound; [exact Hpow | lia]. }
      destruct (Z.eq_dec q (Z.pos M)) as [HqE|HqN]; [right; now split|].
      left. rewrite (dyadic_compare_scale _ _ _ _ E) by lia.
      rewrite Heq, Z.sub_diag, !Z.mul_1_r. apply Z.compare_gt_iff. lia.
    + left. rewrite (dyadic_compare_scale _ _ _ _ E) by lia.
      rewrite Z.sub_diag, Z.mul_1_r. apply Z.compare_gt_iff.
      assert (H2 : 2 <= 2 ^ (e' - E)).
      { change 2 with (2 ^ 1) at 1. apply Z.pow_le_mono_r; lia. }
      assert (H3 : Z.pos M < 2 ^ (prec - 1) * 2).
      { replace (2 ^ (prec - 1) * 2) with (2 ^ prec); [exact HMhi|].
        replace prec with ((prec - 1) + 1) at 1 by lia.
        rewrite Z.pow_add_r by lia. reflexivity. }
      nia.
Qed.

End Rounding.

Lemma format_ok_spec (F : float_format) :
  format_ok F = true ->
  (1 <= fmt_prec F /\
   2 ^ (fmt_prec F - 1) <= Z.pos (fmt_max_m F) < 2 ^ fmt_prec F /\
   fmt_emin F <= fmt_max_e F)%Z.
Proof.
  unfold format_ok. rewrite !andb_true_iff.
  intros [[[H1 H2] H3] H4].
  apply Z.leb_le in H1, H2, H4. apply Z.ltb_lt in H3. lia.
Qed.

(** Saturation of one datum. *)
Lemma cast_value_saturates (F : float_format) (v : spec_float) :
  fmt_has_inf F = false -> format_ok F = true ->
  exceeds F v = true ->
  cast_value F v = max_finite F (sf_sign v).
Proof.
  intros Hinf Hok Hex. apply format_ok_spec in Hok as (Hp & HM & He).
  destruct v as [s|s| |s m e]; try discriminate.
  - simpl. unfold overflow. now rewrite Hinf.
  - simpl in Hex.
    destruct (dyadic_compare (Z.pos m) e (Z.pos (fmt_max_m F)) (fmt_max_e F))
      eqn:Hcmp; try discriminate.
    pose proof (round_above_max _ (fmt_emin F) _ _ _ _ Hp HM He Hcmp) as Hr.
    unfold cast_value.
    destruct (round_nearest_even (fmt_prec F) (fmt_emin F) m e) as [q e'].
    destruct Hr as [Hq [Hgt | [-> ->]]].
    + destruct q as [|q'|q']; try lia.
      rewrite Hgt. unfold overflow. now rewrite Hinf.
    + now rewrite dyadic_compare_refl.
Qed.

(** No result of a cast to a finite-only format lies above its largest
    finite value. *)
Lemma cast_value_bounded (F : float_format) (v : spec_float) :
  fmt_has_inf F = false -> exceeds F (cast_value F v) = false.
Proof.
  intros Hinf. destruct v as [s|s| |s m e]; simpl; try reflexivity.
  - unfold overflow. rewrite Hinf. simpl. now rewrite dyadic_compare_refl.
  - destruct (round_nearest_even (fmt_prec F) (fmt_emin F) m e) as [q e'].
    destruct q as [|q'|q']; try reflexivity.
    destruct (dyadic_compare (Z.pos q') e' (Z.pos (fmt_max_m F)) (fmt_max_e F))
      eqn:Hcmp; simpl; rewrite ?Hcmp; try reflexivity.
    unfold overflow. rewrite Hinf. simpl. now rewrite dyadic_compare_refl.
Qed.

Lemma finite_only_formats_spec (F : float_format) :
  In F finite_only_formats -> fmt_has_inf F = false /\ format_ok F = true.
Proof.
  intros [<-|[<-|[<-|[]]]]; split; reflexivity.
Qed.


(** ** Filter and rename *)

Lemma dict_set_absent {V : Type} (k : string) (v : V) (d : pydict V) :
  PyDict.mem k d = false -> PyDict.set k v d = d ++ [(k, v)].
Proof.
  unfold PyDict.mem. induction d as [|[k0 v0] d IH]; simpl; [reflexivity|].
  destruct (String.eqb k0 k); [discriminate|].
  intros H. now rewrite IH.
Qed.

Section FilterRenameFacts.
Variable matches : string -> string -> bool.
Variables (ignore_keys : list string) (rename_rules : pydict string).

Lemma filter_rename_into_ok (entries : list (string * Tensor)) :
  forall result d',
  filter_rename_into matches entries ignore_keys rename_rules result = inr d' ->
  d' = result ++ map (renamed rename_rules) (survivors matches ignore_keys entries) /\
  (NoDup (PyDict.keys result) -> NoDup (PyDict.keys d')).
Proof.
  induction entries as [|[key tensor] rest IH]; intros result d' H; simpl in H.
  - injection H as <-. simpl. now rewrite app_nil_r.
  - unfold survivors in *. simpl.
    destruct (ignored matches ignore_keys key); simpl.
    + now apply IH.
    + destruct (PyDict.mem (rename_key rename_rules key) result) eqn:Hmem;
        [discriminate|].
      apply IH in H as [-> Hnd]. split.
      * rewrite (dict_set_absent _ _ _ Hmem), <- app_assoc. reflexivity.
      * intros Hres. apply Hnd. now apply dict_set_nodup.
Qed.

Lemma filterRename_ok (d d' : state_dict) :
  filterRename matches d ignore_keys rename_rules = inr d' ->
  d' = map (renamed rename_rules) (survivors matches ignore_keys d) /\
  NoDup (PyDict.keys d').
Proof.
  intros H. apply filter_rename_into_ok in H as [-> Hnd].
  split; [reflexivity | apply Hnd, NoDup_nil_2].
Qed.

(** [KeyCollisionError] is the only failure. *)
Lemma filterRename_error (d : state_dict) (e : exn) :
  filterRename matches d ignore_keys rename_rules = inl e ->
  e = KeyCollisionError.
Proof.
  unfold filterRename. generalize (@nil (string * Tensor)).
  induction d as [|[key tensor] rest IH]; intros result H; simpl in H.
  - discriminate.
  - destruct (ignored matches ignore_keys key); [now apply IH in H|].
    destruct (PyDict.mem (rename_key rename_rules key) result).
    + now injection H.
    + now apply IH in H.
Qed.

Lemma survivors_In (d : state_dict) (kv : string * Tensor) :
  In kv d -> ignored matches ignore_keys (fst kv) = false ->
  In kv (survivors matches ignore_keys d).
Proof.
  intros Hin Hig. unfold survivors. apply filter_In. split; [exact Hin|].
  now rewrite Hig.
Qed.

End FilterRenameFacts.

(** Where the images under [f] are pairwise distinct, equal images come
    from one element. *)
Lemma nodup_map_unique {A B : Type} (f : A -> B) (l : list A) (a b : A) :
  NoDup (map f l) -> In a l -> In b l -> f a = f b -> a = b.
Proof.
  induction l as [|x l IH]; intros Hnd Ha Hb Hk; [contradiction|].
  simpl in Hnd. apply NoDup_cons in Hnd as [Hx Hnd].
  destruct Ha as [->|Ha], Hb as [->|Hb].
  - reflexivity.
  - exfalso. apply Hx. rewrite Hk. apply list_elem_of_In, in_map. exact Hb.
  - exfalso. apply Hx. rewrite <- Hk. apply list_elem_of_In, in_map. exact Ha.
  - now apply IH.
Qed.


(** ** The order of the keys *)

Lemma dict_mem_existsb {V : Type} (k : string) (d : pydict V) :
  PyDict.mem k d = existsb (String.eqb k) (PyDict.keys d).
Proof.
  unfold PyDict.mem. induction d as [|[k0 v0] d IH]; simpl; [reflexivity|].
  rewrite (String.eqb_sym k k0). destruct (String.eqb k0 k); [reflexivity|].
  exact IH.
Qed.

Lemma dict_keys_update {V : Type} (d other : pydict V) :
  PyDict.keys (PyDict.update d other) =
  fold_left
    (fun acc k => if existsb (String.eqb k) acc then acc else acc ++ [k])
    (PyDict.keys other) (PyDict.keys d).
Proof.
  revert d. induction other as [|[k v] other IH]; intros d; [reflexivity|].
  rewrite dict_update_cons, IH, dict_keys_set, dict_mem_existsb. reflexivity.
Qed.

Lemma dict_keys_merge {V : Type} (ds : list (pydict V)) (acc : pydict V) :
  PyDict.keys (fold_left PyDict.update ds acc) =
  fold_left
    (fun acc k => if existsb (String.eqb k) acc then acc else acc ++ [k])
    (concat (map PyDict.keys ds)) (PyDict.keys acc).
Proof.
  revert acc. induction ds as [|d ds IH]; intros acc; [reflexivity|].
  cbn [fold_left map concat]. rewrite IH, fold_left_app, dict_keys_update.
  reflexivity.
Qed.

Lemma merged_keys (ds : list state_dict) :
  PyDict.keys (merged ds) = first_occurrences (concat (map PyDict.keys ds)).
Proof. unfold merged, first_occurrences. apply dict_keys_merge. Qed.

Lemma survivors_keys
    (matches : string -> string -> bool) (ignore_keys : list string)
    (rename_rules : pydict string) (d : state_dict) :
  PyDict.keys (map (renamed rename_rules) (survivors matches ignore_keys d)) =
  final_keys matches ignore_keys rename_rules (PyDict.keys d).
Proof.
  unfold PyDict.keys, final_keys, survivors.
  induction d as [|[k t] d IH]; [reflexivity|].
  cbn [List.filter map fst].
  destruct (ignored matches ignore_keys k); cbn [negb map fst]; [exact IH|].
  now rewrite IH.
Qed.

Lemma cast_total (d : state_dict) (p : Precision) : exists d', cast d p = inr d'.
Proof. unfold cast. destruct (format_of p); eauto. Qed.

Lemma cast_tensor_shape (F : float_format) (t : Tensor) :
  shape (cast_tensor F t) = shape t.
Proof. unfold cast_tensor. now destruct (is_floating_point (dtype t)). Qed.

Lemma cast_keys_shapes (d d' : state_dict) (p : Precision) :
  cast d p = inr d' ->
  PyDict.keys d' = PyDict.keys d /\
  map (fun kv => shape (snd kv)) d' = map (fun kv => shape (snd kv)) d /\
  Forall2
    (fun kv kv' =>
       fst kv' = fst kv /\
       (is_floating_point (dtype (snd kv)) = false -> snd kv' = snd kv))
    d d'.
Proof.
  unfold cast. destruct (format_of p) as [F|]; intros H; injection H as <-.
  - unfold PyDict.keys. rewrite !map_map. cbn [fst snd].
    repeat split.
    + apply map_ext. intros kv. apply cast_tensor_shape.
    + induction d as [|kv d IH]; constructor; [|exact IH].
      cbn [fst snd]. split; [reflexivity|]. intros Hfp.
      unfold cast_tensor. now rewrite Hfp.
  - repeat split. induction d as [|kv d IH]; constructor; auto.
Qed.


(** ** The order of the stages *)

Section StageOrder.
Context {File : Type} (U : Util File).
Implicit Types (w : World File) (d : state_dict) (r : loc).

Lemma convert_trace input_file name precision overwrite ignore_key replace_key w :
  exists o t,
    trace (snd (convert U input_file name precision overwrite ignore_key
                  replace_key w)) = trace w ++ t /\
    t `prefix_of` [EvLoad input_file; EvFilterRename; EvCast; EvWrite o] /\
    (fst (convert U input_file name precision overwrite ignore_key
            replace_key w) = inr tt ->
     [EvLoad input_file; EvFilterRename; EvCast] `prefix_of` t).
Proof.
  unfold convert. run U.
  all: rewrite <- ?app_assoc.
  all: eexists _, _; split; [reflexivity|]; split;
         [eexists; reflexivity
         | first [discriminate | intros _; eexists; reflexivity]].
  Unshelve. all: exact "".
Qed.

Lemma combine_trace input_files name precision overwrite ignore_key replace_key w :
  exists o t,
    trace (snd (combine U input_files name precision overwrite ignore_key
                  replace_key w)) = trace w ++ t /\
    t `prefix_of`
      (map EvLoad input_files ++ [EvFilterRename; EvCast; EvWrite o]) /\
    (fst (combine U input_files name precision overwrite ignore_key
            replace_key w) = inr tt ->
     (map EvLoad input_files ++ [EvFilterRename; EvCast]) `prefix_of` t).
Proof.
  unfold combine. rewrite bind_run.
  destruct (load_combined_general U input_files w)
    as (res & w1 & n & Hrun & _ & _ & Htr & Hok).
  rewrite Hrun. destruct res as [e|r].
  - cbn [fst snd]. exists "", (map EvLoad (take n input_files)).
    split; [exact Htr|]. split; [|discriminate].
    rewrite <- (take_drop n input_files) at 2. rewrite map_app, <- app_assoc.
    eexists; reflexivity.
  - destruct (Hok r eq_refl) as (Hall & d & Hd). rewrite Hall in Htr.
    run U.
    all: rewrite Htr, <- ?app_assoc.
    all: eexists _, (map EvLoad input_files ++ _);
           split; [reflexivity|]; split;
           [apply prefix_app; eexists; reflexivity
           | first [discriminate
                   | intros _; apply prefix_app; eexists; reflexivity]].
    Unshelve. all: exact "".
Qed.

Lemma alloc_items_run (subs : pydict state_dict) w :
  alloc_items subs w =
  (inr (refs_from (length (heap w)) subs),
   mkWorld (heap w ++ map snd subs) (fs w) (out w) (trace w)).
Proof.
  revert w. induction subs as [|[m d] subs IH]; intros w.
  - cbn. rewrite app_nil_r. now destruct w.
  - cbn [alloc_items]. rewrite bind_run. unfold alloc at 1.
    rewrite bind_run, IH, ret_run. cbn [fs heap out trace map refs_from].
    rewrite length_app, Nat.add_1_r, <- app_assoc. reflexivity.
Qed.

Lemma get_diffusers_state_dicts_from_checkpoint_run input_file model_type w :
  get_diffusers_state_dicts_from_checkpoint U input_file model_type w =
  match
    u_get_diffusers_state_dicts_from_checkpoint U input_file model_type (fs w)
  with
  | inl e =>
      (inl e,
       mkWorld (heap w) (fs w) (out w) (trace w ++ [EvSplit input_file]))
  | inr split =>
      (inr (fst split, refs_from (length (heap w)) (snd split)),
       mkWorld (heap w ++ map snd (snd split)) (fs w) (out w)
         (trace w ++ [EvSplit input_file]))
  end.
Proof.
  unfold get_diffusers_state_dicts_from_checkpoint, log.
  rewrite bind_run. cbn [fs heap out trace]. rewrite bind_run.
  destruct (u_get_diffusers_state_dicts_from_checkpoint U input_file
              model_type (fs w)) as [e|split]; [reflexivity|].
  cbn [lift_result]. rewrite ret_run, bind_run, alloc_items_run, ret_run.
  reflexivity.
Qed.

(** Every reference of [refs_from n subs] lies in a heap that has grown
    by [subs] from length [n]. *)
Lemma refs_from_valid (subs : pydict state_dict) :
  forall n, Forall (fun item => n <= snd item < n + length subs)
              (refs_from n subs).
Proof.
  induction subs as [|[m d] subs IH]; intros n; cbn [refs_from];
    constructor.
  - cbn. lia.
  - eapply Forall_impl; [apply IH|]. cbn. intros item. lia.
Qed.

Lemma refs_from_names (subs : pydict state_dict) (n : nat) :
  map fst (refs_from n subs) = map fst subs.
Proof.
  revert n. induction subs as [|[m d] subs IH]; intros n; cbn; [reflexivity|].
  now rewrite IH.
Qed.

(** One turn of the loop of [convert_to_diffusers]. *)
Lemma convert_sub_model_trace
    name model_type precision overwrite ignore_key replace_keys m r w d :
  heap w !! r = Some d ->
  exists res w' o b,
    convert_sub_model U name model_type precision overwrite ignore_key
      replace_keys (m, r) w = (res, w') /\
    length (heap w) <= length (heap w') /\
    trace w' = trace w ++ b /\
    b `prefix_of` output_stages precision m o /\
    (res = inr tt ->
     b = output_stages precision m o \/
     b = [EvFilterRename; EvCast] ++ quantize_stage precision m).
Proof.
  intros Hr. unfold convert_sub_model, output_stages, quantize_stage.
  destruct (is_quantization precision).
  - run U.
    all: eexists _, _, _, _; split; [reflexivity|]; split;
           [cbn [heap]; heap_length|];
           split; [cbn [trace]; rewrite <- ?app_assoc; reflexivity|]; split;
           [eexists; reflexivity
           | first [discriminate
                   | intros _; left; reflexivity
                   | intros _; right; reflexivity]].
    Unshelve. all: exact "".
  - run U.
    all: eexists _, _, _, _; split; [reflexivity|]; split;
           [cbn [heap]; heap_length|];
           split; [cbn [trace]; rewrite <- ?app_assoc; reflexivity|]; split;
           [eexists; reflexivity
           | first [discriminate
                   | intros _; left; reflexivity
                   | intros _; right; reflexivity]].
    Unshelve. all: exact "".
Qed.

Lemma convert_to_diffusers_loop_trace
    name model_type precision overwrite ignore_key replace_keys
    (items : pydict loc) :
  forall w,
  Forall (fun item => snd item < length (heap w)) items ->
  exists res w' blocks,
    for_each items
      (convert_sub_model U name model_type precision overwrite ignore_key
         replace_keys) w = (res, w') /\
    trace w' = trace w ++ concat blocks /\
    Forall (fun b => exists m o, b `prefix_of` output_stages precision m o)
      blocks /\
    (res = inr tt ->
     Forall2
       (fun m b =>
          exists o,
            b = output_stages precision m o \/
            b = [EvFilterRename; EvCast] ++ quantize_stage precision m)
       (map fst items) blocks).
Proof.
  induction items as [|[m r] items IH]; intros w Hvalid.
  - exists (inr tt), w, []. cbn. rewrite app_nil_r.
    repeat split; constructor.
  - apply Forall_cons in Hvalid as [Hr Hvalid]. cbn [snd] in Hr.
    apply lookup_lt_is_Some in Hr as [d Hd].
    destruct (convert_sub_model_trace name model_type precision overwrite
                ignore_key replace_keys m r w d Hd)
      as (res1 & w1 & o & b & Hturn & Hlen & Htr & Hpre & Hdone).
    rewrite for_each_cons, Hturn. destruct res1 as [e|[]].
    + exists (inl e), w1, [b]. cbn [concat]. rewrite app_nil_r.
      repeat split; try assumption; [|discriminate].
      constructor; [now exists m, o | constructor].
    + destruct (IH w1) as (res & w' & blocks & Hrun & Htr' & Hall & Hok).
      { eapply Forall_impl; [exact Hvalid|]. cbn. intros item. lia. }
      exists res, w', (b :: blocks). cbn [concat map fst].
      split; [exact Hrun|]. split; [now rewrite Htr', Htr, <- app_assoc|].
      split; [constructor; [now exists m, o | exact Hall]|].
      intros Hres. constructor; [exists o; now apply Hdone | now apply Hok].
Qed.

Lemma convert_to_diffusers_trace
    input_file name model_type precision overwrite ignore_key replace_key w :
  exists blocks,
    trace (snd (convert_to_diffusers U input_file name model_type precision
                  overwrite ignore_key replace_key w))
    = trace w ++ EvSplit input_file :: concat blocks /\
    Forall (fun b => exists m o, b `prefix_of` output_stages precision m o)
      blocks /\
    (forall split,
        u_get_diffusers_state_dicts_from_checkpoint U input_file model_type
          (fs w) = inr split ->
        fst (convert_to_diffusers U input_file name model_type precision
               overwrite ignore_key replace_key w) = inr tt ->
        Forall2
          (fun m b =>
             exists o,
               b = output_stages precision m o \/
               b = [EvFilterRename; EvCast] ++ quantize_stage precision m)
          (map fst (snd split)) blocks).
Proof.
  unfold convert_to_diffusers.
  rewrite bind_run, get_diffusers_state_dicts_from_checkpoint_run.
  destruct (u_get_diffusers_state_dicts_from_checkpoint U input_file
              model_type (fs w)) as [e|[mt subs]].
  - exists []. cbn. repeat split; [constructor | discriminate].
  - cbn [fst snd]. rewrite bind_run.
    match goal with |- context [for_each ?items ?body ?w1] =>
      destruct (convert_to_diffusers_loop_trace
                  (match name with Some n => n | None => default_name input_file end)
                  mt precision overwrite ignore_key
                  (parse_replace_keys replace_key) items w1)
        as (res & w' & blocks & Hrun & Htr & Hall & Hok)
    end.
    { cbn [heap]. eapply Forall_impl; [apply refs_from_valid|].
      cbn. intros item. rewrite length_app, length_map. lia. }
    rewrite Hrun. exists blocks. cbn [trace] in Htr.
    destruct res as [e|[]].
    + cbn [fst snd]. rewrite Htr, <- app_assoc.
      repeat split; [exact Hall | discriminate].
    + rewrite echo_run. cbn [fst snd trace]. rewrite Htr, <- app_assoc.
      repeat split; [exact Hall|].
      intros split Hsplit _. injection Hsplit as <-. cbn [snd].
      rewrite <- (refs_from_names subs (length (heap w))). now apply Hok.
Qed.

End StageOrder.


(** ** The files after a command *)

Section Files.
Context {File : Type} (U : Util File).
Implicit Types (w : World File) (d : state_dict) (r : loc).

Hypothesis writer_ok : writer_all_or_nothing U.

Ltac failure_done :=
  cbn [fst snd fs]; intros ?; try discriminate;
  repeat match goal with
    | H : u_save_file _ _ _ _ = (Some _, _) |- _ =>
        apply writer_ok in H; subst
    end;
  first
    [ left; reflexivity
    | right; split; [reflexivity|]; eexists; split; [|reflexivity]; eauto ].

Lemma convert_failure
    input_file name precision overwrite ignore_key replace_key w e :
  fst (convert U input_file name precision overwrite ignore_key replace_key w)
  = inl e ->
  failure_leaves overwrite (fs w)
    (fs (snd (convert U input_file name precision overwrite ignore_key
                replace_key w))).
Proof.
  unfold convert, failure_leaves. run U. all: failure_done.
Qed.

Lemma combine_failure
    input_files name precision overwrite ignore_key replace_key w e :
  fst (combine U input_files name precision overwrite ignore_key replace_key w)
  = inl e ->
  failure_leaves overwrite (fs w)
    (fs (snd (combine U input_files name precision overwrite ignore_key
                replace_key w))).
Proof.
  unfold combine, failure_leaves. rewrite bind_run.
  destruct (load_combined_general U input_files w)
    as (res & w1 & n & Hrun & Hfs & _ & _ & Hok).
  rewrite Hrun. destruct res as [e'|r].
  - cbn [fst snd]. intros _. now left.
  - destruct (Hok r eq_refl) as (_ & d & Hd). rewrite <- Hfs.
    run U. all: failure_done.
Qed.

Lemma convert_sub_model_failure
    name model_type precision overwrite ignore_key replace_keys m r w d e :
  heap w !! r = Some d ->
  fst (convert_sub_model U name model_type precision overwrite ignore_key
         replace_keys (m, r) w) = inl e ->
  failure_leaves overwrite (fs w)
    (fs (snd (convert_sub_model U name model_type precision overwrite
                ignore_key replace_keys (m, r) w))).
Proof.
  intros Hr. unfold convert_sub_model, failure_leaves.
  destruct (is_quantization precision).
  - run U. all: failure_done.
  - run U. all: failure_done.
Qed.

End Files.

Section Outputs.
Context {File : Type} (U : Util File).
Implicit Types (w : World File) (d : state_dict) (r : loc).

(** *** An output that exists, without [--overwrite] *)

Lemma convert_existing_output
    input_file name precision ignore_key replace_key w d0 d1 d2 x :
  u_load_state_dict U input_file (fs w) = inr d0 ->
  u_get_filtered_renamed_state_dict U d0 ignore_key
    (parse_replace_keys replace_key) = inr d1 ->
  u_convert_state_dict_dtype U d1 precision = inr d2 ->
  fs w !! (output_name name (default_name input_file) +:+
           u_get_extension_for_state_dict U d2) = Some x ->
  fst (convert U input_file name precision false ignore_key replace_key w)
  = inr tt /\
  fs (snd (convert U input_file name precision false ignore_key replace_key w))
  = fs w /\
  out (snd (convert U input_file name precision false ignore_key replace_key w))
  = out w ++
    [exists_message (output_name name (default_name input_file) +:+
                     u_get_extension_for_state_dict U d2)].
Proof.
  intros Hload Hfilter Hcast Hex. unfold output_name in Hex.
  unfold convert. run U. repeat split.
Qed.

Lemma combine_existing_output
    input_files name precision ignore_key replace_key w ds d1 d2 x :
  Forall2 (fun f d => u_load_state_dict U f (fs w) = inr d) input_files ds ->
  u_get_filtered_renamed_state_dict U (merged ds) ignore_key
    (parse_replace_keys replace_key) = inr d1 ->
  u_convert_state_dict_dtype U d1 precision = inr d2 ->
  fs w !! (output_name name (PyStr.join "-" (map default_name input_files)) +:+
           u_get_extension_for_state_dict U d2) = Some x ->
  fst (combine U input_files name precision false ignore_key replace_key w)
  = inr tt /\
  fs (snd (combine U input_files name precision false ignore_key replace_key w))
  = fs w /\
  out (snd (combine U input_files name precision false ignore_key replace_key w))
  = out w ++
    [exists_message
       (output_name name (PyStr.join "-" (map default_name input_files)) +:+
        u_get_extension_for_state_dict U d2)].
Proof.
  intros Hload Hfilter Hcast Hex. unfold output_name in Hex.
  unfold combine. rewrite bind_run.
  destruct (load_combined_run U input_files ds w Hload)
    as (w1 & Hrun & Hheap & Hfs & Hout & _).
  rewrite Hrun. rewrite <- Hfs in Hex. rewrite <- Hfs, <- Hout.
  run U. repeat split.
Qed.

Lemma convert_sub_model_existing_output
    name model_type precision ignore_key replace_keys m r rest w d d1 d2 d3 x :
  heap w !! r = Some d ->
  u_get_filtered_renamed_state_dict U d ignore_key replace_keys = inr d1 ->
  u_convert_state_dict_dtype U d1 precision = inr d2 ->
  quantized_or_not U model_type m precision d2 = inr d3 ->
  fs w !! (name +:+ "-" +:+ m +:+ u_get_extension_for_state_dict U d3)
  = Some x ->
  exists w',
    for_each ((m, r) :: rest)
      (convert_sub_model U name model_type precision false ignore_key
         replace_keys) w
    = for_each rest
        (convert_sub_model U name model_type precision false ignore_key
           replace_keys) w' /\
    fs w' = fs w /\
    out w' = out w ++
      [exists_message
         (name +:+ "-" +:+ m +:+ u_get_extension_for_state_dict U d3)] /\
    (forall r' d', heap w !! r' = Some d' -> heap w' !! r' = Some d').
Proof.
  intros Hr Hfilter Hcast Hq Hex. rewrite for_each_cons.
  unfold convert_sub_model, quantized_or_not in *.
  destruct (is_quantization precision).
  - run U. eexists. split; [reflexivity|]. cbn [fs out heap].
    repeat split. intros r' d' Hr'.
    pose proof (lookup_lt_Some _ _ _ Hr') as Hlt.
    rewrite lookup_app_l by (rewrite length_insert, length_app; lia).
    rewrite list_lookup_insert_ne by lia.
    now apply heap_lookup_old.
  - injection Hq as <-.
    run U. eexists. split; [reflexivity|]. cbn [fs out heap].
    repeat split. intros r' d' Hr'.
    pose proof (lookup_lt_Some _ _ _ Hr') as Hlt.
    rewrite list_lookup_insert_ne by lia.
    now apply heap_lookup_old.
Qed.

(** *** What is written *)

Lemma convert_writes
    input_file name precision overwrite ignore_key replace_key w d0 d1 d2 :
  u_load_state_dict U input_file (fs w) = inr d0 ->
  u_get_filtered_renamed_state_dict U d0 ignore_key
    (parse_replace_keys replace_key) = inr d1 ->
  u_convert_state_dict_dtype U d1 precision = inr d2 ->
  fs w !! (output_name name (default_name input_file) +:+
           u_get_extension_for_state_dict U d2) = None \/ overwrite = true ->
  fs (snd (convert U input_file name precision overwrite ignore_key
             replace_key w))
  = snd (u_save_file U d2
           (output_name name (default_name input_file) +:+
            u_get_extension_for_state_dict U d2)
           (delete (output_name name (default_name input_file) +:+
                    u_get_extension_for_state_dict U d2) (fs w))).
Proof.
  intros Hload Hfilter Hcast Hgo. unfold output_name in *.
  unfold convert. run U.
  all: try (destruct Hgo; congruence).
  all: try reflexivity.
  all: rewrite (delete_id (fs w)) in * by assumption.
  all: match goal with H : u_save_file _ _ _ _ = _ |- _ => now rewrite H end.
Qed.

Lemma combine_writes
    input_files name precision overwrite ignore_key replace_key w ds d1 d2 :
  Forall2 (fun f d => u_load_state_dict U f (fs w) = inr d) input_files ds ->
  u_get_filtered_renamed_state_dict U (merged ds) ignore_key
    (parse_replace_keys replace_key) = inr d1 ->
  u_convert_state_dict_dtype U d1 precision = inr d2 ->
  fs w !! (output_name name (PyStr.join "-" (map default_name input_files)) +:+
           u_get_extension_for_state_dict U d2) = None \/ overwrite = true ->
  fs (snd (combine U input_files name precision overwrite ignore_key
             replace_key w))
  = snd (u_save_file U d2
           (output_name name (PyStr.join "-" (map default_name input_files)) +:+
            u_get_extension_for_state_dict U d2)
           (delete (output_name name
                      (PyStr.join "-" (map default_name input_files)) +:+
                    u_get_extension_for_state_dict U d2) (fs w))).
Proof.
  intros Hload Hfilter Hcast Hgo. unfold output_name in *.
  unfold combine. rewrite bind_run.
  destruct (load_combined_run U input_files ds w Hload)
    as (w1 & Hrun & Hheap & Hfs & Hout & _).
  rewrite Hrun. rewrite <- Hfs in *.
  run U.
  all: try (destruct Hgo; congruence).
  all: try reflexivity.
  all: rewrite (delete_id (fs w1)) in * by assumption.
  all: match goal with H : u_save_file _ _ _ _ = _ |- _ => now rewrite H end.
Qed.

Lemma convert_sub_model_writes
    name model_type precision overwrite ignore_key replace_keys m r w
    d d1 d2 d3 :
  heap w !! r = Some d ->
  u_get_filtered_renamed_state_dict U d ignore_key replace_keys = inr d1 ->
  u_convert_state_dict_dtype U d1 precision = inr d2 ->
  quantized_or_not U model_type m precision d2 = inr d3 ->
  fs w !! (name +:+ "-" +:+ m +:+ u_get_extension_for_state_dict U d3) = None
  \/ overwrite = true ->
  fs (snd (convert_sub_model U name model_type precision overwrite ignore_key
             replace_keys (m, r) w))
  = snd (u_save_file U d3
           (name +:+ "-" +:+ m +:+ u_get_extension_for_state_dict U d3)
           (delete (name +:+ "-" +:+ m +:+ u_get_extension_for_state_dict U d3)
              (fs w))).
Proof.
  intros Hr Hfilter Hcast Hq Hgo.
  unfold convert_sub_model, quantized_or_not in *.
  destruct (is_quantization precision).
  - run U.
    all: try (destruct Hgo; congruence).
    all: try reflexivity.
    all: rewrite (delete_id (fs w)) in * by assumption.
    all: first
           [ reflexivity
           | match goal with
             | H : u_save_file _ _ _ _ = _ |- _ => now rewrite H
             end ].
  - injection Hq as <-. run U.
    all: try (destruct Hgo; congruence).
    all: try reflexivity.
    all: rewrite (delete_id (fs w)) in * by assumption.
    all: first
           [ reflexivity
           | match goal with
             | H : u_save_file _ _ _ _ = _ |- _ => now rewrite H
             end ].
Qed.

End Outputs.


(** ** The values under the keys, through the stages *)

Lemma dict_get_In {V : Type} (k : string) (v : V) (d : pydict V) :
  PyDict.get k d = Some v -> In (k, v) d.
Proof.
  induction d as [|[k0 v0] d IH]; simpl; [discriminate|].
  destruct (String.eqb_spec k0 k) as [->|Hne].
  - intros H. injection H as ->. now left.
  - intros H. right. now apply IH.
Qed.

Lemma dict_In_get {V : Type} (k : string) (v : V) (d : pydict V) :
  NoDup (PyDict.keys d) -> In (k, v) d -> PyDict.get k d = Some v.
Proof.
  induction d as [|[k0 v0] d IH]; simpl; [contradiction|].
  intros Hnd Hin. apply NoDup_cons in Hnd as [Hk0 Hnd].
  destruct Hin as [Heq|Hin].
  - injection Heq as -> ->. now rewrite String.eqb_refl.
  - destruct (String.eqb_spec k0 k) as [->|Hne]; [|now apply IH].
    exfalso. apply Hk0. apply list_elem_of_In.
    change k with (fst (k, v)). now apply in_map.
Qed.

(** A surviving entry is in the result of the filter under its final key,
    with its tensor. *)
Lemma filterRename_value
    (matches : string -> string -> bool) (ignore_keys : list string)
    (rename_rules : pydict string) (d d1 : state_dict) (K : string)
    (v : Tensor) :
  filterRename matches d ignore_keys rename_rules = inr d1 ->
  PyDict.get K d = Some v ->
  ignored matches ignore_keys K = false ->
  PyDict.get (rename_key rename_rules K) d1 = Some v.
Proof.
  intros Hf Hv Hig. apply filterRename_ok in Hf as [Heq Hnd].
  apply dict_In_get; [exact Hnd|]. rewrite Heq.
  change (rename_key rename_rules K, v) with (renamed rename_rules (K, v)).
  apply in_map, survivors_In; [now apply dict_get_In | exact Hig].
Qed.

Lemma cast_value_at (d d' : state_dict) (p : Precision) (k : string)
    (v : Tensor) :
  cast d p = inr d' -> PyDict.get k d = Some v ->
  PyDict.get k d' = Some (cast_entry p v).
Proof.
  unfold cast, cast_entry. destruct (format_of p) as [F|];
    intros H; injection H as <-; [|auto].
  induction d as [|[k0 v0] d IH]; simpl; [discriminate|].
  destruct (String.eqb k0 k); [|exact IH].
  intros Hv. now injection Hv as ->.
Qed.

(** Without rules the filter gives the dict back. *)
Lemma filterRename_no_rules
    (matches : string -> string -> bool) (d d1 : state_dict) :
  filterRename matches d [] [] = inr d1 -> d1 = d.
Proof.
  intros Hf. apply filterRename_ok in Hf as [-> _].
  unfold survivors, renamed, ignored, rename_key. cbn [existsb negb fold_left].
  induction d as [|[k v] d IH]; [reflexivity|].
  cbn [List.filter map fst snd]. now rewrite IH.
Qed.


(** ** The loop of [convert_to_diffusers] as a function of the files *)

Section DiffusersOutputs.
Context {File : Type} (U : Util File).
Implicit Types (w : World File) (d : state_dict) (r : loc).

Ltac heap_frame :=
  let r' := fresh "r'" in
  let d' := fresh "d'" in
  let Hr' := fresh "Hr'" in
  let Hlt := fresh "Hlt" in
  intros r' d' Hr'; cbn [heap];
  pose proof (lookup_lt_Some _ _ _ Hr') as Hlt;
  repeat first
    [ rewrite lookup_app_l by heap_length
    | rewrite list_lookup_insert_ne by lia ];
  exact Hr'.

Ltac turn_done :=
  cbn [fst snd fs heap];
  split; [heap_frame|];
  repeat match goal with
    | H : u_save_file _ _ _ _ = _ |- _ => rewrite H
    end;
  cbn [fst snd]; split; reflexivity.

(** One turn: the dicts that were there stay as they are, and the files
    are those of [write_output] on the dict of the sub-model. *)
Lemma convert_sub_model_result
    name model_type precision overwrite ignore_key replace_keys m r w d :
  heap w !! r = Some d ->
  (forall r' d',
      heap w !! r' = Some d' ->
      heap (snd (convert_sub_model U name model_type precision overwrite
                   ignore_key replace_keys (m, r) w)) !! r' = Some d') /\
  match sub_model_dict U model_type precision ignore_key replace_keys m d with
  | inl e =>
      fst (convert_sub_model U name model_type precision overwrite
             ignore_key replace_keys (m, r) w) = inl e /\
      fs (snd (convert_sub_model U name model_type precision overwrite
                 ignore_key replace_keys (m, r) w)) = fs w
  | inr d3 =>
      fst (convert_sub_model U name model_type precision overwrite
             ignore_key replace_keys (m, r) w)
      = match fst (write_output U overwrite d3
                     (name +:+ "-" +:+ m +:+
                      u_get_extension_for_state_dict U d3) (fs w)) with
        | Some e => inl e
        | None => inr tt
        end /\
      fs (snd (convert_sub_model U name model_type precision overwrite
                 ignore_key replace_keys (m, r) w))
      = snd (write_output U overwrite d3
               (name +:+ "-" +:+ m +:+ u_get_extension_for_state_dict U d3)
               (fs w))
  end.
Proof.
  intros Hr.
  unfold convert_sub_model, sub_model_dict, quantized_or_not, write_output.
  destruct (is_quantization precision).
  - run U. all: turn_done.
  - run U. all: turn_done.
Qed.

Lemma diffusers_loop_result
    name model_type precision overwrite ignore_key replace_keys
    (subs : pydict state_dict) :
  forall n w,
  (forall i md, subs !! i = Some md -> heap w !! (n + i) = Some (snd md)) ->
  fst (for_each (refs_from n subs)
         (convert_sub_model U name model_type precision overwrite ignore_key
            replace_keys) w)
  = match fst (diffusers_outputs U name model_type precision overwrite
                 ignore_key replace_keys subs (fs w)) with
    | Some e => inl e
    | None => inr tt
    end /\
  fs (snd (for_each (refs_from n subs)
             (convert_sub_model U name model_type precision overwrite
                ignore_key replace_keys) w))
  = snd (diffusers_outputs U name model_type precision overwrite ignore_key
           replace_keys subs (fs w)).
Proof.
  induction subs as [|[m d] subs IH]; intros n w Hheap.
  - cbn. split; reflexivity.
  - cbn [refs_from diffusers_outputs]. rewrite for_each_cons.
    assert (Hd : heap w !! n = Some d).
    { specialize (Hheap 0 (m, d) eq_refl). now rewrite Nat.add_0_r in Hheap. }
    destruct (convert_sub_model_result name model_type precision overwrite
                ignore_key replace_keys m n w d Hd) as [Hframe Hturn].
    revert Hframe Hturn.
    destruct (convert_sub_model U _ _ _ _ _ _ _ w) as [res1 w1].
    cbn [fst snd].
    destruct (sub_model_dict U model_type precision ignore_key replace_keys
                m d) as [e|d3].
    + intros _ [-> Hfs]. cbn [fst snd]. split; [reflexivity | exact Hfs].
    + destruct (write_output U overwrite d3 _ (fs w)) as [[e|] files'];
        cbn [fst snd]; intros Hframe [-> Hfs].
      * cbn [fst snd]. split; [reflexivity | exact Hfs].
      * rewrite <- Hfs.
        apply (IH (S n) w1). intros i md Hi.
        apply Hframe. replace (S n + i) with (n + S i) by lia.
        now apply (Hheap (S i)).
Qed.

(** [convert_to_diffusers] after a split that succeeds: the files are those
    of [diffusers_outputs] over the sub-models in the order of the split. *)
Lemma convert_to_diffusers_result
    input_file name model_type precision overwrite ignore_key replace_key w
    split :
  u_get_diffusers_state_dicts_from_checkpoint U input_file model_type (fs w)
  = inr split ->
  fst (convert_to_diffusers U input_file name model_type precision overwrite
         ignore_key replace_key w)
  = match fst (diffusers_outputs U (output_name name (default_name input_file))
                 (fst split) precision overwrite ignore_key
                 (parse_replace_keys replace_key) (snd split) (fs w)) with
    | Some e => inl e
    | None => inr tt
    end /\
  fs (snd (convert_to_diffusers U input_file name model_type precision
             overwrite ignore_key replace_key w))
  = snd (diffusers_outputs U (output_name name (default_name input_file))
           (fst split) precision overwrite ignore_key
           (parse_replace_keys replace_key) (snd split) (fs w)).
Proof.
  intros Hsplit. unfold convert_to_diffusers, output_name.
  rewrite bind_run, get_diffusers_state_dicts_from_checkpoint_run, Hsplit.
  destruct split as [mt subs]. cbn [fst snd]. rewrite bind_run.
  match goal with |- context [for_each (refs_from ?n0 subs) ?body ?w1] =>
    destruct (diffusers_loop_result
                (match name with Some x => x | None => default_name input_file end)
                mt precision overwrite ignore_key
                (parse_replace_keys replace_key) subs n0 w1)
      as [Hres Hfs]
  end.
  { intros i md Hi. cbn [heap].
    rewrite lookup_app_r by lia.
    replace (length (heap w) + i - length (heap w)) with i by lia.
    rewrite list_lookup_fmap, Hi. reflexivity. }
  cbn [fs] in Hres, Hfs. revert Hres Hfs.
  destruct (for_each _ _ _) as [res w'].
  cbn [fst snd]. intros -> <-.
  destruct (fst (diffusers_outputs _ _ _ _ _ _ _ _ _)).
  - split; reflexivity.
  - rewrite echo_run. split; reflexivity.
Qed.

End DiffusersOutputs.


(** ** The embedding on examples *)

Example partition_examples :
  PyStr.partition ":" "model.:net." = ("model.", ":", "net.") /\
  PyStr.partition ":" "a:b:c" = ("a", ":", "b:c") /\
  PyStr.partition ":" "prefix" = ("prefix", "", "") /\
  PyStr.partition ":" ":x" = ("", ":", "x").
Proof. repeat split. Qed.

Example replace_examples :
  PyStr.replace "model." "" "model.layers.0.model.weight" = "layers.0.weight" /\
  PyStr.replace "aa" "b" "aaaaa" = "bba" /\
  PyStr.replace "ab" "" "aabb" = "ab" /\
  PyStr.replace "" "-" "abc" = "-a-b-c-" /\
  PyStr.replace "x" "y" "abc" = "abc".
Proof. repeat split. Qed.

Example default_name_examples :
  default_name "models/sd15.ckpt" = "sd15" /\
  default_name "sd15.fp16.safetensors" = "sd15.fp16" /\
  default_name ".hidden" = ".hidden" /\
  default_name "plain" = "plain".
Proof. repeat split. Qed.

Example abbreviate_examples :
  abbreviate 0 = inr "0" /\
  abbreviate 999 = inr "999" /\
  abbreviate 1000 = inr "1.0K" /\
  abbreviate 9950 = inr "9.9K" /\
  abbreviate 10500 = inr "10K" /\
  abbreviate 11500 = inr "12K" /\
  abbreviate 1000500 = inr "1.0M" /\
  abbreviate 860000000 = inr "860M" /\
  abbreviate 2600000000 = inr "2.6B".
Proof. vm_compute. repeat split. Qed.

Example format_comma_d_examples :
  PyStr.format_comma_d 0 = "0" /\
  PyStr.format_comma_d 999 = "999" /\
  PyStr.format_comma_d 1000 = "1,000" /\
  PyStr.format_comma_d 1000500 = "1,000,500".
Proof. vm_compute. repeat split. Qed.

Example cast_value_examples :
  cast_value fmt_e4m3_fn (S754_finite false 1000 0) = S754_finite false 14 5 /\
  cast_value fmt_e4m3_fn (S754_finite true 432 0) = S754_finite true 14 5 /\
  cast_value fmt_e4m3_fn (S754_finite true 431 0) = S754_finite true 13 5 /\
  cast_value fmt_e4m3_fn_uz (S754_zero true) = S754_zero false /\
  cast_value fmt_e5m2_fn_uz (S754_infinity true) = S754_finite true 7 13 /\
  cast_value fmt_e5m2 (S754_infinity true) = S754_infinity true /\
  cast_value fmt_float16 (S754_finite false 65519 0) = S754_finite false 2047 5 /\
  cast_value fmt_float16 (S754_finite false 65520 0) = S754_infinity false.
Proof. vm_compute. repeat split. Qed.

(** [convert in.ckpt] in a directory that holds [in.ckpt] only. *)
Example convert_example :
  convert demo_util "in.ckpt" None prec_full false [] ["a.:x."]
    (empty_world {[ "in.ckpt" := checkpoint_a ]})
  = (inr tt,
     mkWorld
       [checkpoint_a;
        [("x.weight", tensor_of_shape [1%N]);
         ("shared.weight", tensor_of_shape [2%N])]]
       {[ "in.ckpt" := checkpoint_a;
          "in.safetensors" :=
            [("x.weight", tensor_of_shape [1%N]);
             ("shared.weight", tensor_of_shape [2%N])] ]}
       ["Writing in.safetensors"; "Done!"]
       [EvLoad "in.ckpt"; EvFilterRename; EvCast; EvWrite "in.safetensors"]).
Proof. vm_compute. reflexivity. Qed.

(** [convert-to-diffusers model.ckpt] where the output of [unet] is there
    already: the message, then the output of [vae], then [Done!]. *)
Example convert_to_diffusers_example :
  fst (convert_to_diffusers demo_util "model.ckpt" None None prec_full false
         [] []
         (empty_world {[ "model.ckpt" := checkpoint_sd;
                         "model-unet.safetensors" := checkpoint_a ]}))
  = inr tt /\
  out (snd (convert_to_diffusers demo_util "model.ckpt" None None prec_full
              false [] []
              (empty_world {[ "model.ckpt" := checkpoint_sd;
                              "model-unet.safetensors" := checkpoint_a ]})))
  = ["Output file model-unet.safetensors already exists, use --overwrite to replace";
     "Writing model-vae.safetensors"; "Done!"] /\
  fs (snd (convert_to_diffusers demo_util "model.ckpt" None None prec_full
             false [] []
             (empty_world {[ "model.ckpt" := checkpoint_sd;
                             "model-unet.safetensors" := checkpoint_a ]})))
  = {[ "model.ckpt" := checkpoint_sd;
       "model-unet.safetensors" := checkpoint_a;
       "model-vae.safetensors" :=
         [("conv.weight", tensor_of_shape [2%N; 2%N])] ]}.
Proof. vm_compute. repeat split. Qed.

(** [combine a.ckpt b.ckpt]: the value of the shared key is that of
    [b.ckpt], at the place where [a.ckpt] put the key. *)
Example combine_example :
  fs (snd (combine demo_util ["a.ckpt"; "b.ckpt"] None prec_full false [] []
             (empty_world
                {[ "a.ckpt" := checkpoint_a; "b.ckpt" := checkpoint_b ]})))
  !! "a-b.safetensors"
  = Some [("a.weight", tensor_of_shape [1%N]);
          ("shared.weight", tensor_of_shape [3%N]);
          ("b.weight", tensor_of_shape [4%N])].
Proof. vm_compute. reflexivity. Qed.


(** ** The claims *)

(** C3: the filter/rename stage fails with [KeyCollisionError] whenever
    two distinct original keys that survive the ignore rules are renamed
    to the same final key; and when it succeeds, its result holds every
    surviving tensor under its final key, in the original order, no final
    key twice: no tensor has been overwritten by another. *)
Theorem filterRename_key_collision
    (matches : string -> string -> bool) (d : state_dict)
    (ignore_keys : list string) (rename_rules : pydict string) :
  (forall k1 k2 t1 t2,
      In (k1, t1) d -> In (k2, t2) d -> k1 <> k2 ->
      ignored matches ignore_keys k1 = false ->
      ignored matches ignore_keys k2 = false ->
      rename_key rename_rules k1 = rename_key rename_rules k2 ->
      filterRename matches d ignore_keys rename_rules = inl KeyCollisionError) /\
  (forall d',
      filterRename matches d ignore_keys rename_rules = inr d' ->
      d' = map (renamed rename_rules) (survivors matches ignore_keys d) /\
      NoDup (PyDict.keys d')).
Proof.
  split.
  - intros k1 k2 t1 t2 H1 H2 Hne Hi1 Hi2 Hsame.
    destruct (filterRename matches d ignore_keys rename_rules) as [e|d'] eqn:Hrun.
    + f_equal. eapply filterRename_error; eassumption.
    + exfalso. apply filterRename_ok in Hrun as [-> Hnd].
      unfold PyDict.keys in Hnd. rewrite map_map in Hnd.
      apply Hne.
      change k1 with (fst (k1, t1)). change k2 with (fst (k2, t2)).
      f_equal.
      eapply (nodup_map_unique _ _ _ _ Hnd).
      * now apply survivors_In.
      * now apply survivors_In.
      * exact Hsame.
  - intros d'. apply filterRename_ok.
Qed.

Lemma filterRename_key_collision_witness :
  filterRename String.eqb
    [("model.a.weight", mkTensor [2%N] torch_float32 []);
     ("model.b.weight", mkTensor [3%N] torch_float32 [])]
    [] [("a.", ""); ("b.", "")]
  = inl KeyCollisionError.
Proof.
  apply (proj1 (filterRename_key_collision String.eqb _ [] [("a.", ""); ("b.", "")])
           "model.a.weight" "model.b.weight"
           (mkTensor [2%N] torch_float32 []) (mkTensor [3%N] torch_float32 [])).
  - simpl. left. reflexivity.
  - simpl. right. left. reflexivity.
  - discriminate.
  - reflexivity.
  - reflexivity.
  - vm_compute. reflexivity.
Defined.

(** C8: a cast to a finite-only format ([e4m3-fn], [e4m3-fn-uz],
    [e5m2-fn-uz]) sends every datum whose magnitude is above the format's
    largest finite value, the infinities among them, to that largest
    finite value with the datum's sign, which is no NaN; and no datum of
    any cast tensor lies above the largest finite value. *)
Theorem cast_saturates_finite_only (F : float_format) (t : Tensor) :
  In F finite_only_formats ->
  is_floating_point (dtype t) = true ->
  Forall2
    (fun x y =>
       forall v, x = SFloat v ->
         (exceeds F v = true ->
          y = SFloat (max_finite F (sf_sign v)) /\
          max_finite F (sf_sign v) <> S754_nan) /\
         (exists v', y = SFloat v' /\ exceeds F v' = false))
    (data t) (data (cast_tensor F t)).
Proof.
  intros HF Hfp. apply finite_only_formats_spec in HF as [Hinf Hok].
  unfold cast_tensor. rewrite Hfp. cbn [data].
  induction (data t) as [|x l IH]; simpl; constructor; [|exact IH].
  intros v ->. simpl. split.
  - intros Hex. split; [|discriminate].
    f_equal. now apply cast_value_saturates.
  - eexists; split; [reflexivity|]. now apply cast_value_bounded.
Qed.

Lemma cast_saturates_finite_only_witness :
  Forall2
    (fun x y =>
       forall v, x = SFloat v ->
         (exceeds fmt_e4m3_fn v = true ->
          y = SFloat (max_finite fmt_e4m3_fn (sf_sign v)) /\
          max_finite fmt_e4m3_fn (sf_sign v) <> S754_nan) /\
         (exists v', y = SFloat v' /\ exceeds fmt_e4m3_fn v' = false))
    [SFloat (S754_finite true 1000 0); SFloat (S754_infinity false)]
    (data (cast_tensor fmt_e4m3_fn
             (mkTensor [2%N] torch_float32
                [SFloat (S754_finite true 1000 0); SFloat (S754_infinity false)]))).
Proof.
  apply (cast_saturates_finite_only fmt_e4m3_fn
           (mkTensor [2%N] torch_float32
              [SFloat (S754_finite true 1000 0); SFloat (S754_infinity false)])).
  - simpl. left. reflexivity.
  - reflexivity.
Defined.

(** C10: a [--replace-key] argument is split at its first colon. Without
    a colon it gives the whole argument and the empty string; with
    several, everything after the first one is the new part; of several
    arguments with the same old part the last one's new part is kept (and
    the old part stands once in [replace_keys]). A rule parsed from an
    argument without colon deletes the argument's occurrences from a key,
    scanning from the left: the leftmost occurrence goes and the scan
    continues behind it, and a key without occurrence stays as it is. *)
Theorem replace_key_parsing :
  (forall arg,
      PyStr.contains_char ":" arg = false ->
      parse_replace_key arg = (arg, "")) /\
  (forall old new,
      PyStr.contains_char ":" old = false ->
      parse_replace_key (old +:+ ":" +:+ new) = (old, new)) /\
  (forall args1 arg args2,
      (forall a, In a args2 ->
         fst (parse_replace_key a) <> fst (parse_replace_key arg)) ->
      PyDict.get (fst (parse_replace_key arg))
        (parse_replace_keys (args1 ++ arg :: args2))
      = Some (snd (parse_replace_key arg))) /\
  (forall args, NoDup (PyDict.keys (parse_replace_keys args))) /\
  (forall arg pre post,
      PyStr.contains_char ":" arg = false -> arg <> "" ->
      first_occurrence arg pre ->
      rename_key (parse_replace_keys [arg]) (pre +:+ arg +:+ post)
      = pre +:+ rename_key (parse_replace_keys [arg]) post) /\
  (forall arg key,
      PyStr.contains_char ":" arg = false ->
      (forall a b, key <> a +:+ arg +:+ b) ->
      rename_key (parse_replace_keys [arg]) key = key).
Proof.
  assert (Hone : forall arg, PyStr.contains_char ":" arg = false ->
            parse_replace_keys [arg] = [(arg, "")]).
  { intros arg H. unfold parse_replace_keys, parse_replace_key. simpl.
    now rewrite (partition_no_sep _ _ H). }
  repeat split.
  - intros arg H. unfold parse_replace_key. now rewrite (partition_no_sep _ _ H).
  - intros old new H. unfold parse_replace_key.
    change (":" +:+ new) with (String ":" new).
    now rewrite (partition_first_sep _ _ _ H).
  - intros args1 arg args2 Hlast. unfold parse_replace_keys, PyDict.of_pairs.
    rewrite map_app, map_cons, dict_update_app.
    destruct (parse_replace_key arg) as [old new] eqn:Harg. cbn [fst snd] in *.
    rewrite dict_update_cons, dict_get_update_absent.
    + apply dict_get_set_eq.
    + apply dict_get_none_keys. unfold PyDict.keys. rewrite map_map.
      intros Hin. apply list_elem_of_In, in_map_iff in Hin as (a & Ha & Hin).
      now apply (Hlast a Hin).
  - intros args. unfold parse_replace_keys, PyDict.of_pairs.
    apply dict_update_nodup. apply NoDup_nil_2.
  - intros arg pre post Hcolon Hne Hfirst. rewrite (Hone _ Hcolon).
    unfold rename_key. cbn [fold_left fst snd]. unfold PyStr.replace.
    destruct arg as [|c arg]; [congruence|].
    now rewrite replace_scan_first.
  - intros arg key Hcolon Habs. rewrite (Hone _ Hcolon).
    unfold rename_key. cbn [fold_left fst snd]. unfold PyStr.replace.
    destruct arg as [|c arg].
    + exfalso. now apply (Habs "" key).
    + now apply replace_scan_absent.
Qed.

Lemma replace_key_parsing_witness :
  parse_replace_key "model.diffusion_model." = ("model.diffusion_model.", "") /\
  parse_replace_key "a:b:c" = ("a", "b:c") /\
  PyDict.get "a" (parse_replace_keys ["a:x"; "b:y"; "a:z"]) = Some "z" /\
  rename_key (parse_replace_keys ["ab"]) ("x" +:+ "ab" +:+ "yabab")
  = "x" +:+ rename_key (parse_replace_keys ["ab"]) "yabab" /\
  rename_key (parse_replace_keys ["ab"]) "xyz" = "xyz".
Proof.
  destruct replace_key_parsing as (H1 & H2 & H3 & _ & H5 & H6).
  split; [|split; [|split; [|split]]].
  - apply H1. reflexivity.
  - apply (H2 "a" "b:c"). reflexivity.
  - apply (H3 ["a:x"; "b:y"] "a:z" []). intros a [].
  - apply (H5 "ab" "x" "yabab").
    + reflexivity.
    + discriminate.
    + apply no_match_before_spec. reflexivity.
  - apply (H6 "ab" "xyz").
    + reflexivity.
    + apply occurs_spec. reflexivity.
Defined.

(** C2: the file that [combine] writes holds, for a key of the inputs
    that no ignore rule matches, the tensor of the last input that has the
    key, under the key's final name and cast to the precision: of two
    inputs that both have the key, the one listed later wins. Without
    rules and at full precision the file holds the merge itself. The
    inputs are state dicts (no key twice). *)
Theorem combine_later_file_wins
    {File : Type} (U : Util File) (matches : string -> string -> bool)
    (input_files : list string) (name : option string)
    (precision : Precision) (overwrite : bool)
    (ignore_key replace_key : list string)
    (ds : list state_dict) (w : World File) (d1 : state_dict) :
  u_get_filtered_renamed_state_dict U = filterRename matches ->
  u_convert_state_dict_dtype U = cast ->
  Forall2 (fun f d => u_load_state_dict U f (fs w) = inr d) input_files ds ->
  Forall (fun d => NoDup (PyDict.keys d)) ds ->
  filterRename matches (merged ds) ignore_key (parse_replace_keys replace_key)
  = inr d1 ->
  exists written,
    cast d1 precision = inr written /\
    (fs w !! (output_name name (PyStr.join "-" (map default_name input_files))
              +:+ u_get_extension_for_state_dict U written) = None
     \/ overwrite = true ->
     fs (snd (combine U input_files name precision overwrite ignore_key
                replace_key w))
     = snd (u_save_file U written
              (output_name name
                 (PyStr.join "-" (map default_name input_files)) +:+
               u_get_extension_for_state_dict U written)
              (delete (output_name name
                         (PyStr.join "-" (map default_name input_files)) +:+
                       u_get_extension_for_state_dict U written) (fs w)))) /\
    (forall K j dj v,
        ds !! j = Some dj -> PyDict.get K dj = Some v ->
        (forall j' d', j < j' -> ds !! j' = Some d' -> PyDict.get K d' = None) ->
        ignored matches ignore_key K = false ->
        PyDict.get (rename_key (parse_replace_keys replace_key) K) written
        = Some (cast_entry precision v)) /\
    (forall A B K vA vB,
        ds = [A; B] -> PyDict.get K A = Some vA -> PyDict.get K B = Some vB ->
        ignored matches ignore_key K = false ->
        PyDict.get (rename_key (parse_replace_keys replace_key) K) written
        = Some (cast_entry precision vB)) /\
    (ignore_key = [] -> replace_key = [] -> precision = prec_full ->
     written = merged ds).
Proof.
  intros HF HC Hload Hnd Hfilter.
  destruct (cast_total d1 precision) as [written Hcast].
  exists written. split; [exact Hcast|].
  assert (Hlast : forall K j dj v,
    ds !! j = Some dj -> PyDict.get K dj = Some v ->
    (forall j' d', j < j' -> ds !! j' = Some d' -> PyDict.get K d' = None) ->
    ignored matches ignore_key K = false ->
    PyDict.get (rename_key (parse_replace_keys replace_key) K) written
    = Some (cast_entry precision v)).
  { intros K j dj v Hj Hv Hlater Hig.
    apply (cast_value_at d1 written precision _ _ Hcast).
    apply (filterRename_value matches ignore_key _ (merged ds) d1 K v Hfilter);
      [|exact Hig].
    unfold merged. eapply merged_last; try eassumption.
    eapply Forall_lookup_1 in Hnd; eassumption. }
  split; [|split; [exact Hlast|split]].
  - intros Hgo.
    apply (combine_writes U input_files name precision overwrite ignore_key
             replace_key w ds d1 written);
      [exact Hload | rewrite HF; exact Hfilter | rewrite HC; exact Hcast
      | exact Hgo].
  - intros A B K vA vB -> _ HB Hig.
    apply (Hlast K 1 B vB); [reflexivity | exact HB | | exact Hig].
    intros [|[|j']] d' Hlt Hj'; try lia. discriminate.
  - intros -> -> ->.
    change (parse_replace_keys []) with (@nil (string * string)) in Hfilter.
    apply filterRename_no_rules in Hfilter. subst d1.
    unfold cast in Hcast. cbn in Hcast. now injection Hcast as <-.
Qed.

Lemma combine_later_file_wins_witness :
  exists written,
    fs (snd (combine demo_util ["a.ckpt"; "b.ckpt"] None prec_full false [] []
               (empty_world
                  {[ "a.ckpt" := checkpoint_a; "b.ckpt" := checkpoint_b ]})))
    !! "a-b.safetensors" = Some written /\
    PyDict.get "shared.weight" checkpoint_a = Some (tensor_of_shape [2%N]) /\
    PyDict.get "shared.weight" checkpoint_b = Some (tensor_of_shape [3%N]) /\
    PyDict.get "shared.weight" written = Some (tensor_of_shape [3%N]).
Proof.
  destruct (combine_later_file_wins demo_util String.eqb
              ["a.ckpt"; "b.ckpt"] None prec_full false [] []
              [checkpoint_a; checkpoint_b]
              (empty_world
                 {[ "a.ckpt" := checkpoint_a; "b.ckpt" := checkpoint_b ]})
              (merged [checkpoint_a; checkpoint_b]) eq_refl eq_refl)
    as (written & Hcast & Hfs & _ & Hpair & _).
  - repeat constructor.
  - repeat constructor; vm_compute; intros H; inversion H; subst;
      repeat match goal with
        | H : _ ∈ _ :: _ |- _ => inversion H; clear H; subst
        | H : _ ∈ [] |- _ => inversion H
        end.
  - vm_compute. reflexivity.
  - exists written. split; [|split; [reflexivity|split; [reflexivity|]]].
    + rewrite Hfs by (left; vm_compute; reflexivity).
      injection Hcast as <-. vm_compute. reflexivity.
    + apply (Hpair checkpoint_a checkpoint_b "shared.weight"
               (tensor_of_shape [2%N]) (tensor_of_shape [3%N]));
        reflexivity.
Defined.

(** C6: on a state dict of exactly two tensors of shapes (1000, 1000) and
    (500,), [metadata] prints the two entry lines, an empty line and the
    total line with 1,000,500 parameters abbreviated as 1.0M. *)
Theorem metadata_total_parameters
    {File : Type} (U : Util File) (input_file : string) (w : World File)
    (key1 key2 : string) (t1 t2 : Tensor) :
  u_load_state_dict U input_file (fs w) = inr [(key1, t1); (key2, t2)] ->
  shape t1 = [1000%N; 1000%N] -> shape t2 = [500%N] ->
  fst (metadata U input_file w) = inr tt /\
  out (snd (metadata U input_file w)) =
    out w ++ [metadata_line U key1 t1; metadata_line U key2 t2; "";
              "Total parameters: " +:+ u_cyan U "1.0M" +:+ " (1,000,500)"] /\
  numel t1 = 1000000%N /\ numel t2 = 500%N /\
  abbreviate (numel t1 + numel t2) = inr "1.0M".
Proof.
  intros Hload Hs1 Hs2.
  assert (Hn1 : numel t1 = 1000000%N) by (unfold numel; now rewrite Hs1).
  assert (Hn2 : numel t2 = 500%N) by (unfold numel; now rewrite Hs2).
  assert (Hab : abbreviate 1000500 = inr "1.0M") by (vm_compute; reflexivity).
  unfold metadata.
  rewrite bind_run, load_state_dict_run, Hload.
  rewrite bind_run. erewrite deref_run by solve_heap.
  rewrite bind_run. cbn [fold_each fst snd].
  rewrite bind_run, bind_run, echo_run, ret_run.
  rewrite bind_run, bind_run, echo_run, ret_run, ret_run.
  rewrite Hn1, Hn2. change (0 + 1000000 + 500)%N with 1000500%N.
  rewrite bind_run, Hab. cbn [lift_result]. rewrite ret_run.
  rewrite bind_run, echo_run, echo_run. cbn [fst snd out].
  repeat split.
  rewrite <- !app_assoc. reflexivity.
Qed.

Lemma metadata_total_parameters_witness :
  fst (metadata demo_util "model.safetensors"
         (empty_world {[ "model.safetensors" := checkpoint_meta ]})) = inr tt /\
  out (snd (metadata demo_util "model.safetensors"
              (empty_world {[ "model.safetensors" := checkpoint_meta ]}))) =
    [] ++ ["w: [1000, 1000] <float32>"; "b: [500] <float32>"; "";
           "Total parameters: 1.0M (1,000,500)"].
Proof.
  destruct (metadata_total_parameters demo_util "model.safetensors"
              (empty_world {[ "model.safetensors" := checkpoint_meta ]})
              "w" "b" (tensor_of_shape [1000%N; 1000%N]) (tensor_of_shape [500%N]))
    as (Hres & Hout & _).
  - reflexivity.
  - reflexivity.
  - reflexivity.
  - split; [exact Hres | exact Hout].
Defined.

(** C1 (as amended): [convert] calls the loader, filter/rename, the cast
    and the writer in this order, and [combine] the loader once per input
    file, in the order of the list, then filter/rename, the cast and the
    writer; a run that stops early has gone through a prefix of that
    sequence, and a run that returns has gone through it up to the cast
    at least. [convert-to-diffusers] loads and splits first, in one call;
    then, for each sub-model in the order of the split, it calls
    filter/rename, the cast, the quantizer for [nf4] and [int8], and the
    writer: filter/rename and cast work on the sub-models, after the
    split. *)
Theorem pipeline_stage_order
    {File : Type} (U : Util File) (w : World File)
    (name : option string) (precision : Precision) (overwrite : bool)
    (ignore_key replace_key : list string) :
  (forall input_file,
      exists o t,
        trace (snd (convert U input_file name precision overwrite ignore_key
                      replace_key w)) = trace w ++ t /\
        t `prefix_of` [EvLoad input_file; EvFilterRename; EvCast; EvWrite o] /\
        (fst (convert U input_file name precision overwrite ignore_key
                replace_key w) = inr tt ->
         [EvLoad input_file; EvFilterRename; EvCast] `prefix_of` t)) /\
  (forall input_files,
      exists o t,
        trace (snd (combine U input_files name precision overwrite ignore_key
                      replace_key w)) = trace w ++ t /\
        t `prefix_of`
          (map EvLoad input_files ++ [EvFilterRename; EvCast; EvWrite o]) /\
        (fst (combine U input_files name precision overwrite ignore_key
                replace_key w) = inr tt ->
         (map EvLoad input_files ++ [EvFilterRename; EvCast]) `prefix_of` t)) /\
  (forall input_file model_type,
      exists blocks,
        trace (snd (convert_to_diffusers U input_file name model_type
                      precision overwrite ignore_key replace_key w))
        = trace w ++ EvSplit input_file :: concat blocks /\
        Forall
          (fun b => exists m o, b `prefix_of` output_stages precision m o)
          blocks /\
        (forall split,
            u_get_diffusers_state_dicts_from_checkpoint U input_file
              model_type (fs w) = inr split ->
            fst (convert_to_diffusers U input_file name model_type precision
                   overwrite ignore_key replace_key w) = inr tt ->
            Forall2
              (fun m b =>
                 exists o,
                   b = output_stages precision m o \/
                   b = [EvFilterRename; EvCast] ++ quantize_stage precision m)
              (map fst (snd split)) blocks)).
Proof.
  split; [|split].
  - intros input_file. apply convert_trace.
  - intros input_files. apply combine_trace.
  - intros input_file model_type. apply convert_to_diffusers_trace.
Qed.

(** C1, as stated, fails: [convert-to-diffusers] on a checkpoint with the
    sub-models [unet] and [vae] splits before it filters, renames or
    casts anything. *)
Lemma convert_to_diffusers_splits_first :
  trace (snd (convert_to_diffusers demo_util "model.ckpt" None None prec_full
                false [] []
                (empty_world {[ "model.ckpt" := checkpoint_sd ]})))
  = [EvSplit "model.ckpt";
     EvFilterRename; EvCast; EvWrite "model-unet.safetensors";
     EvFilterRename; EvCast; EvWrite "model-vae.safetensors"] /\
  ~ filter_and_cast_before_split
      (trace (snd (convert_to_diffusers demo_util "model.ckpt" None None
                     prec_full false [] []
                     (empty_world {[ "model.ckpt" := checkpoint_sd ]})))).
Proof.
  assert (Htr : trace (snd (convert_to_diffusers demo_util "model.ckpt" None
                              None prec_full false [] []
                              (empty_world {[ "model.ckpt" := checkpoint_sd ]})))
                = [EvSplit "model.ckpt";
                   EvFilterRename; EvCast; EvWrite "model-unet.safetensors";
                   EvFilterRename; EvCast; EvWrite "model-vae.safetensors"])
    by (vm_compute; reflexivity).
  split; [exact Htr|]. rewrite Htr. intros Hclaim.
  destruct (Hclaim [] "model.ckpt" _ eq_refl) as [Hin _]. inversion Hin.
Qed.

(** C4 (as amended): with a writer that writes to completion or not at
    all, a failed [convert], [combine] or turn of [convert-to-diffusers]
    leaves the files as they were, except that with [--overwrite] an
    output file that was there has been removed before the writer is
    called and is gone after a failed write. *)
Theorem failed_command_files {File : Type} (U : Util File) :
  writer_all_or_nothing U ->
  (forall input_file name precision overwrite ignore_key replace_key w e,
      fst (convert U input_file name precision overwrite ignore_key
             replace_key w) = inl e ->
      failure_leaves overwrite (fs w)
        (fs (snd (convert U input_file name precision overwrite ignore_key
                    replace_key w)))) /\
  (forall input_files name precision overwrite ignore_key replace_key w e,
      fst (combine U input_files name precision overwrite ignore_key
             replace_key w) = inl e ->
      failure_leaves overwrite (fs w)
        (fs (snd (combine U input_files name precision overwrite ignore_key
                    replace_key w)))) /\
  (forall name model_type precision overwrite ignore_key replace_keys m r w
          d e,
      heap w !! r = Some d ->
      fst (convert_sub_model U name model_type precision overwrite ignore_key
             replace_keys (m, r) w) = inl e ->
      failure_leaves overwrite (fs w)
        (fs (snd (convert_sub_model U name model_type precision overwrite
                    ignore_key replace_keys (m, r) w)))).
Proof.
  intros Hwriter. split; [|split]; intros.
  - eapply convert_failure; eassumption.
  - eapply combine_failure; eassumption.
  - eapply convert_sub_model_failure; eassumption.
Qed.

Lemma failed_command_files_witness :
  failure_leaves true (fs world_with_output)
    (fs (snd (convert failing_writer_util "in.ckpt" None prec_full true [] []
                world_with_output))).
Proof.
  apply (proj1 (failed_command_files failing_writer_util
                  ltac:(intros d o files e files' H; now injection H)))
    with (e := WriteError).
  vm_compute. reflexivity.
Defined.

(** C4, as stated, fails: [convert --overwrite] onto an existing output,
    with a writer that fails without touching the files: the command
    fails and the output file that was there is gone. *)
Lemma overwrite_destroys_existing_output :
  fst (convert failing_writer_util "in.ckpt" None prec_full true [] []
         world_with_output) = inl WriteError /\
  fs world_with_output !! "in.safetensors" = Some checkpoint_b /\
  fs (snd (convert failing_writer_util "in.ckpt" None prec_full true [] []
             world_with_output)) !! "in.safetensors" = None.
Proof. vm_compute. repeat split. Qed.

(** C5: when the output file exists and [--overwrite] was not given,
    [convert] and [combine] print the message and return, the files as
    they were; a turn of [convert-to-diffusers] prints the message, leaves
    the files as they were, and the loop goes on with the remaining
    sub-models, whose dicts are untouched. *)
Theorem existing_output_without_overwrite {File : Type} (U : Util File) :
  (forall input_file name precision ignore_key replace_key w d0 d1 d2 x,
      u_load_state_dict U input_file (fs w) = inr d0 ->
      u_get_filtered_renamed_state_dict U d0 ignore_key
        (parse_replace_keys replace_key) = inr d1 ->
      u_convert_state_dict_dtype U d1 precision = inr d2 ->
      fs w !! (output_name name (default_name input_file) +:+
               u_get_extension_for_state_dict U d2) = Some x ->
      fst (convert U input_file name precision false ignore_key replace_key w)
      = inr tt /\
      fs (snd (convert U input_file name precision false ignore_key
                 replace_key w)) = fs w /\
      out (snd (convert U input_file name precision false ignore_key
                  replace_key w))
      = out w ++
        [exists_message (output_name name (default_name input_file) +:+
                         u_get_extension_for_state_dict U d2)]) /\
  (forall input_files name precision ignore_key replace_key w ds d1 d2 x,
      Forall2 (fun f d => u_load_state_dict U f (fs w) = inr d)
        input_files ds ->
      u_get_filtered_renamed_state_dict U (merged ds) ignore_key
        (parse_replace_keys replace_key) = inr d1 ->
      u_convert_state_dict_dtype U d1 precision = inr d2 ->
      fs w !! (output_name name
                 (PyStr.join "-" (map default_name input_files)) +:+
               u_get_extension_for_state_dict U d2) = Some x ->
      fst (combine U input_files name precision false ignore_key replace_key w)
      = inr tt /\
      fs (snd (combine U input_files name precision false ignore_key
                 replace_key w)) = fs w /\
      out (snd (combine U input_files name precision false ignore_key
                  replace_key w))
      = out w ++
        [exists_message
           (output_name name
              (PyStr.join "-" (map default_name input_files)) +:+
            u_get_extension_for_state_dict U d2)]) /\
  (forall name model_type precision ignore_key replace_keys m r rest w
          d d1 d2 d3 x,
      heap w !! r = Some d ->
      u_get_filtered_renamed_state_dict U d ignore_key replace_keys = inr d1 ->
      u_convert_state_dict_dtype U d1 precision = inr d2 ->
      quantized_or_not U model_type m precision d2 = inr d3 ->
      fs w !! (name +:+ "-" +:+ m +:+ u_get_extension_for_state_dict U d3)
      = Some x ->
      exists w',
        for_each ((m, r) :: rest)
          (convert_sub_model U name model_type precision false ignore_key
             replace_keys) w
        = for_each rest
            (convert_sub_model U name model_type precision false ignore_key
               replace_keys) w' /\
        fs w' = fs w /\
        out w' = out w ++
          [exists_message
             (name +:+ "-" +:+ m +:+ u_get_extension_for_state_dict U d3)] /\
        (forall r' d', heap w !! r' = Some d' -> heap w' !! r' = Some d')).
Proof.
  split; [|split]; intros.
  - eapply convert_existing_output; eassumption.
  - eapply combine_existing_output; eassumption.
  - eapply convert_sub_model_existing_output; eassumption.
Qed.

Lemma existing_output_without_overwrite_witness :
  (fst (convert demo_util "in.ckpt" None prec_full false [] []
          world_with_output) = inr tt /\
   fs (snd (convert demo_util "in.ckpt" None prec_full false [] []
              world_with_output)) = fs world_with_output /\
   out (snd (convert demo_util "in.ckpt" None prec_full false [] []
               world_with_output))
   = [] ++ ["Output file in.safetensors already exists, use --overwrite to replace"]) /\
  (exists w',
      for_each [("unet", 0); ("vae", 1)]
        (convert_sub_model demo_util "model" "sd15" prec_full false [] [])
        world_after_split
      = for_each [("vae", 1)]
          (convert_sub_model demo_util "model" "sd15" prec_full false [] [])
          w' /\
      fs w' = fs world_after_split /\
      out w' = [] ++ ["Output file model-unet.safetensors already exists, use --overwrite to replace"] /\
      (forall r' d', heap world_after_split !! r' = Some d' ->
                     heap w' !! r' = Some d')).
Proof.
  destruct (existing_output_without_overwrite demo_util) as (Hc & _ & Hd).
  split.
  - apply (Hc "in.ckpt" None prec_full [] [] world_with_output
             checkpoint_a checkpoint_a checkpoint_a checkpoint_b);
      reflexivity.
  - apply (Hd "model" "sd15" prec_full [] [] "unet" 0 [("vae", 1)]
             world_after_split
             [("conv.weight", tensor_of_shape [4%N; 4%N]);
              ("conv.bias", tensor_of_shape [4%N])]
             [("conv.weight", tensor_of_shape [4%N; 4%N]);
              ("conv.bias", tensor_of_shape [4%N])]
             [("conv.weight", tensor_of_shape [4%N; 4%N]);
              ("conv.bias", tensor_of_shape [4%N])]
             [("conv.weight", tensor_of_shape [4%N; 4%N]);
              ("conv.bias", tensor_of_shape [4%N])]
             checkpoint_a);
      reflexivity.
Defined.

(** C7: the cast leaves the keys, their order and every shape as they
    are, and the tensors that are not floating point altogether; it
    changes the dict it is given, in place (no other object, no file, no
    console line), and returns nothing the caller uses: what [convert]
    writes after the call is the dict as the cast has left it. *)
Theorem cast_changes_values_in_place {File : Type} (U : Util File) :
  u_convert_state_dict_dtype U = cast ->
  (forall w r d precision,
      heap w !! r = Some d ->
      exists d',
        cast d precision = inr d' /\
        convert_state_dict_dtype U r precision w
        = (inr tt,
           mkWorld (<[r := d']> (heap w)) (fs w) (out w) (trace w ++ [EvCast])) /\
        PyDict.keys d' = PyDict.keys d /\
        map (fun kv => shape (snd kv)) d' = map (fun kv => shape (snd kv)) d /\
        Forall2
          (fun kv kv' =>
             fst kv' = fst kv /\
             (is_floating_point (dtype (snd kv)) = false -> snd kv' = snd kv))
          d d') /\
  (forall input_file name precision overwrite ignore_key replace_key w d0 d1,
      u_load_state_dict U input_file (fs w) = inr d0 ->
      u_get_filtered_renamed_state_dict U d0 ignore_key
        (parse_replace_keys replace_key) = inr d1 ->
      exists d2,
        cast d1 precision = inr d2 /\
        (fs w !! (output_name name (default_name input_file) +:+
                  u_get_extension_for_state_dict U d2) = None
         \/ overwrite = true ->
         fs (snd (convert U input_file name precision overwrite ignore_key
                    replace_key w))
         = snd (u_save_file U d2
                  (output_name name (default_name input_file) +:+
                   u_get_extension_for_state_dict U d2)
                  (delete (output_name name (default_name input_file) +:+
                           u_get_extension_for_state_dict U d2) (fs w))))).
Proof.
  intros HU. split.
  - intros w r d precision Hr.
    destruct (cast_total d precision) as [d' Hd'].
    exists d'. split; [exact Hd'|]. split.
    + erewrite convert_state_dict_dtype_run by eassumption.
      now rewrite HU, Hd'.
    + now apply (cast_keys_shapes d d' precision).
  - intros input_file name precision overwrite ignore_key replace_key w d0 d1
      Hload Hfilter.
    destruct (cast_total d1 precision) as [d2 Hd2].
    exists d2. split; [exact Hd2|]. intros Hgo.
    apply (convert_writes U input_file name precision overwrite ignore_key
             replace_key w d0 d1 d2);
      [exact Hload | exact Hfilter | rewrite HU; exact Hd2 | exact Hgo].
Qed.

Lemma cast_changes_values_in_place_witness :
  exists d',
    cast checkpoint_mixed prec_float16 = inr d' /\
    convert_state_dict_dtype demo_util 0 prec_float16
      (mkWorld [checkpoint_mixed] ∅ [] [])
    = (inr tt, mkWorld (<[0 := d']> [checkpoint_mixed]) ∅ [] ([] ++ [EvCast])) /\
    PyDict.keys d' = PyDict.keys checkpoint_mixed /\
    map (fun kv => shape (snd kv)) d'
    = map (fun kv => shape (snd kv)) checkpoint_mixed.
Proof.
  destruct (proj1 (cast_changes_values_in_place demo_util eq_refl)
              (mkWorld [checkpoint_mixed] ∅ [] []) 0 checkpoint_mixed
              prec_float16 eq_refl)
    as (d' & Hcast & Hrun & Hkeys & Hshapes & _).
  exists d'. repeat split; assumption.
Defined.

(** C9: the keys of what a command writes stand in the order of their
    first insertion, each of them once. For [convert]: the keys of the input that no ignore
    rule matches, renamed, in the order of the input. For [combine]: the
    same over the keys of the inputs in the order of the file list, a key
    that several inputs have standing where the first of them put it. For
    a turn of [convert-to-diffusers] without quantization: the same over
    the keys of the sub-model's dict. The commands are functions of their
    inputs, so a second run gives the same order. *)
Theorem output_keys_in_insertion_order
    {File : Type} (U : Util File) (matches : string -> string -> bool) :
  u_get_filtered_renamed_state_dict U = filterRename matches ->
  u_convert_state_dict_dtype U = cast ->
  (forall input_file name precision overwrite ignore_key replace_key w d0 d1,
      u_load_state_dict U input_file (fs w) = inr d0 ->
      filterRename matches d0 ignore_key (parse_replace_keys replace_key)
      = inr d1 ->
      exists d2,
        cast d1 precision = inr d2 /\
        PyDict.keys d2
        = final_keys matches ignore_key (parse_replace_keys replace_key)
            (PyDict.keys d0) /\
        NoDup (PyDict.keys d2) /\
        (fs w !! (output_name name (default_name input_file) +:+
                  u_get_extension_for_state_dict U d2) = None
         \/ overwrite = true ->
         fs (snd (convert U input_file name precision overwrite ignore_key
                    replace_key w))
         = snd (u_save_file U d2
                  (output_name name (default_name input_file) +:+
                   u_get_extension_for_state_dict U d2)
                  (delete (output_name name (default_name input_file) +:+
                           u_get_extension_for_state_dict U d2) (fs w))))) /\
  (forall input_files name precision overwrite ignore_key replace_key w ds d1,
      Forall2 (fun f d => u_load_state_dict U f (fs w) = inr d)
        input_files ds ->
      filterRename matches (merged ds) ignore_key
        (parse_replace_keys replace_key) = inr d1 ->
      exists d2,
        cast d1 precision = inr d2 /\
        PyDict.keys d2
        = final_keys matches ignore_key (parse_replace_keys replace_key)
            (first_occurrences (concat (map PyDict.keys ds))) /\
        NoDup (PyDict.keys d2) /\
        (fs w !! (output_name name
                    (PyStr.join "-" (map default_name input_files)) +:+
                  u_get_extension_for_state_dict U d2) = None
         \/ overwrite = true ->
         fs (snd (combine U input_files name precision overwrite ignore_key
                    replace_key w))
         = snd (u_save_file U d2
                  (output_name name
                     (PyStr.join "-" (map default_name input_files)) +:+
                   u_get_extension_for_state_dict U d2)
                  (delete (output_name name
                             (PyStr.join "-" (map default_name input_files)) +:+
                           u_get_extension_for_state_dict U d2) (fs w))))) /\
  (forall name model_type precision overwrite ignore_key replace_keys m r w
          d d1,
      is_quantization precision = false ->
      heap w !! r = Some d ->
      filterRename matches d ignore_key replace_keys = inr d1 ->
      exists d2,
        cast d1 precision = inr d2 /\
        PyDict.keys d2
        = final_keys matches ignore_key replace_keys (PyDict.keys d) /\
        NoDup (PyDict.keys d2) /\
        (fs w !! (name +:+ "-" +:+ m +:+ u_get_extension_for_state_dict U d2)
         = None \/ overwrite = true ->
         fs (snd (convert_sub_model U name model_type precision overwrite
                    ignore_key replace_keys (m, r) w))
         = snd (u_save_file U d2
                  (name +:+ "-" +:+ m +:+ u_get_extension_for_state_dict U d2)
                  (delete (name +:+ "-" +:+ m +:+
                           u_get_extension_for_state_dict U d2) (fs w))))).
Proof.
  intros HF HC.
  assert (Hkeys : forall d d1 d2 ig rules p,
             filterRename matches d ig rules = inr d1 ->
             cast d1 p = inr d2 ->
             PyDict.keys d2 = final_keys matches ig rules (PyDict.keys d) /\
             NoDup (PyDict.keys d2)).
  { intros d d1 d2 ig rules p Hf Hc.
    apply cast_keys_shapes in Hc as [-> _].
    apply filterRename_ok in Hf as [-> Hnd].
    split; [apply survivors_keys | exact Hnd]. }
  split; [|split].
  - intros input_file name precision overwrite ignore_key replace_key w d0 d1
      Hload Hfilter.
    destruct (cast_total d1 precision) as [d2 Hd2].
    destruct (Hkeys _ _ _ _ _ _ Hfilter Hd2) as [Hk Hnd].
    exists d2. repeat (split; [assumption|]).
    intros Hgo.
    apply (convert_writes U input_file name precision overwrite ignore_key
             replace_key w d0 d1 d2);
      [exact Hload | rewrite HF; exact Hfilter | rewrite HC; exact Hd2
      | exact Hgo].
  - intros input_files name precision overwrite ignore_key replace_key w ds d1
      Hload Hfilter.
    destruct (cast_total d1 precision) as [d2 Hd2].
    destruct (Hkeys _ _ _ _ _ _ Hfilter Hd2) as [Hk Hnd].
    rewrite merged_keys in Hk.
    exists d2. repeat (split; [assumption|]).
    intros Hgo.
    apply (combine_writes U input_files name precision overwrite ignore_key
             replace_key w ds d1 d2);
      [exact Hload | rewrite HF; exact Hfilter | rewrite HC; exact Hd2
      | exact Hgo].
  - intros name model_type precision overwrite ignore_key replace_keys m r w
      d d1 Hq Hr Hfilter.
    destruct (cast_total d1 precision) as [d2 Hd2].
    destruct (Hkeys _ _ _ _ _ _ Hfilter Hd2) as [Hk Hnd].
    exists d2. repeat (split; [assumption|]).
    intros Hgo.
    apply (convert_sub_model_writes U name model_type precision overwrite
             ignore_key replace_keys m r w d d1 d2 d2);
      [exact Hr | rewrite HF; exact Hfilter | rewrite HC; exact Hd2
      | unfold quantized_or_not; now rewrite Hq | exact Hgo].
Qed.

Lemma output_keys_in_insertion_order_witness :
  exists d2,
    cast (merged [checkpoint_a; checkpoint_b]) prec_full = inr d2 /\
    PyDict.keys d2 = ["a.weight"; "shared.weight"; "b.weight"] /\
    fs (snd (combine demo_util ["a.ckpt"; "b.ckpt"] None prec_full false [] []
               (empty_world
                  {[ "a.ckpt" := checkpoint_a; "b.ckpt" := checkpoint_b ]})))
    !! "a-b.safetensors" = Some d2.
Proof.
  destruct (proj1 (proj2 (output_keys_in_insertion_order demo_util String.eqb
                            eq_refl eq_refl))
              ["a.ckpt"; "b.ckpt"] None prec_full false [] []
              (empty_world
                 {[ "a.ckpt" := checkpoint_a; "b.ckpt" := checkpoint_b ]})
              [checkpoint_a; checkpoint_b]
              (merged [checkpoint_a; checkpoint_b]))
    as (d2 & Hcast & Hkeys & _ & Hfs).
  - repeat constructor.
  - vm_compute. reflexivity.
  - exists d2. split; [exact Hcast|]. split; [exact Hkeys|].
    rewrite Hfs by (left; vm_compute; reflexivity).
    injection Hcast as <-. vm_compute. reflexivity.
Defined.


(** ** Further properties of the commands *)

(** *** [metadata] *)

Section MetadataFacts.
Context {File : Type} (U : Util File).
Implicit Types (w : World File) (d : state_dict).

Lemma metadata_loop_run d :
  forall (total : N) w,
  fold_each d
    (fun total kv =>
       bind (echo (metadata_line U (fst kv) (snd kv)))
         (fun _ => ret (total + numel (snd kv))%N))
    total w
  = (inr (total + total_params d)%N,
     mkWorld (heap w) (fs w)
       (out w ++ map (fun kv => metadata_line U (fst kv) (snd kv)) d)
       (trace w)).
Proof.
  induction d as [|kv d IH]; intros total w.
  - cbn. rewrite N.add_0_r, app_nil_r. now destruct w.
  - cbn [fold_each]. rewrite bind_run, bind_run, echo_run, ret_run, IH.
    cbn [heap fs out trace map]. unfold total_params. cbn [map fold_right].
    rewrite <- app_assoc, N.add_assoc. reflexivity.
Qed.

End MetadataFacts.

(** X1: [metadata] prints one line per entry, in the order of the dict,
    then an empty line and the total line; the total is the sum of the
    element counts of all tensors. When the total is beyond the doubles,
    the entry lines are printed and the command fails with the
    [OverflowError] of the conversion. *)
Theorem metadata_report
    {File : Type} (U : Util File) (input_file : string) (w : World File)
    (d : state_dict) :
  u_load_state_dict U input_file (fs w) = inr d ->
  match abbreviate (total_params d) with
  | inr abbreviated =>
      fst (metadata U input_file w) = inr tt /\
      out (snd (metadata U input_file w)) =
        out w ++ map (fun kv => metadata_line U (fst kv) (snd kv)) d ++
        [""; total_line U (total_params d) abbreviated]
  | inl e =>
      fst (metadata U input_file w) = inl e /\
      out (snd (metadata U input_file w)) =
        out w ++ map (fun kv => metadata_line U (fst kv) (snd kv)) d
  end.
Proof.
  intros Hload. unfold metadata.
  rewrite bind_run, load_state_dict_run, Hload.
  rewrite bind_run. erewrite deref_run by solve_heap.
  rewrite bind_run, metadata_loop_run. cbn [heap fs out trace].
  rewrite N.add_0_l, bind_run.
  destruct (abbreviate (total_params d)) as [e|abbreviated]; cbn [lift_result].
  - split; reflexivity.
  - rewrite ret_run, bind_run, echo_run, echo_run. cbn [fst snd out].
    split; [reflexivity|]. rewrite <- !app_assoc. reflexivity.
Qed.

Lemma metadata_report_witness :
  fst (metadata demo_util "model.ckpt"
         (empty_world {[ "model.ckpt" := checkpoint_sd ]})) = inr tt /\
  out (snd (metadata demo_util "model.ckpt"
              (empty_world {[ "model.ckpt" := checkpoint_sd ]}))) =
    [] ++ ["unet.conv.weight: [4, 4] <float32>";
           "vae.conv.weight: [2, 2] <float32>";
           "unet.conv.bias: [4] <float32>"] ++
    [""; "Total parameters: 24 (24)"].
Proof.
  exact (metadata_report demo_util "model.ckpt"
           (empty_world {[ "model.ckpt" := checkpoint_sd ]}) checkpoint_sd
           eq_refl).
Defined.

(** X2: [metadata] reads only: whatever happens, the files are as before
    and the loader is the only stage called; when the file does not load,
    the command fails with the loader's exception and has printed
    nothing. *)
Theorem metadata_reads_only
    {File : Type} (U : Util File) (input_file : string) (w : World File) :
  fs (snd (metadata U input_file w)) = fs w /\
  trace (snd (metadata U input_file w)) = trace w ++ [EvLoad input_file] /\
  (forall e,
      u_load_state_dict U input_file (fs w) = inl e ->
      fst (metadata U input_file w) = inl e /\
      out (snd (metadata U input_file w)) = out w).
Proof.
  unfold metadata. rewrite bind_run, load_state_dict_run.
  destruct (u_load_state_dict U input_file (fs w)) as [e|d].
  - cbn [fst snd fs trace out].
    split; [reflexivity|]. split; [reflexivity|].
    intros e' He'. injection He' as <-. split; reflexivity.
  - rewrite bind_run. erewrite deref_run by solve_heap.
    rewrite bind_run, metadata_loop_run. cbn [heap fs out trace].
    rewrite bind_run.
    destruct (abbreviate (0 + total_params d)) as [e|a]; cbn [lift_result].
    + cbn [fst snd fs trace].
      split; [reflexivity|]. split; [reflexivity|]. discriminate.
    + rewrite ret_run, bind_run, echo_run, echo_run. cbn [fst snd fs trace].
      split; [reflexivity|]. split; [reflexivity|]. discriminate.
Qed.

(** *** The abbreviation of the total *)

(** X3: a total below 1000 is printed as it is: no unit, no decimals. *)
Theorem abbreviate_below_1000 (n : N) :
  (n < 1000)%N -> abbreviate n = inr (PyStr.str_of_N n).
Proof.
  intros Hn.
  assert (Hall : plain_below 1000 = true) by (vm_compute; reflexivity).
  unfold plain_below in Hall. rewrite forallb_forall in Hall.
  specialize (Hall (N.to_nat n)). rewrite N2Nat.id in Hall.
  destruct (abbreviate n) as [e|s].
  - discriminate Hall. apply in_seq. lia.
  - f_equal. apply String.eqb_eq, Hall, in_seq. lia.
Qed.

Lemma abbreviate_below_1000_witness : abbreviate 999 = inr "999".
Proof. apply (abbreviate_below_1000 999). reflexivity. Defined.

Lemma abbreviate_loop_exhausted (x : float) :
  (forall j, j < 5 -> PrimFloat.ltb (div1000 j x) 1000%float = false) ->
  abbreviate_loop abbreviated_units x "" = (div1000 5 x, "T").
Proof.
  intros H. unfold abbreviated_units. cbn [abbreviate_loop].
  pose proof (H 0 ltac:(lia)) as H0. pose proof (H 1 ltac:(lia)) as H1.
  pose proof (H 2 ltac:(lia)) as H2. pose proof (H 3 ltac:(lia)) as H3.
  pose proof (H 4 ltac:(lia)) as H4.
  cbn [div1000 Nat.iter nat_rect] in *.
  rewrite H0, H1, H2, H3, H4. reflexivity.
Qed.

(** X4: the loop over the units ends with the last one: a total that is
    still 1000 or more after the division for [B] gets the unit [T] and
    the value after a fifth division by 1000, one more than [T] stands
    for. *)
Theorem abbreviate_beyond_units (n : N) (f : float) :
  float_of_int n = inr f ->
  (forall j, j < 5 -> PrimFloat.ltb (div1000 j f) 1000%float = false) ->
  abbreviate n =
  inr (format_f (if PrimFloat.ltb (div1000 5 f) 10%float then 1 else 0)
         (div1000 5 f) +:+ "T").
Proof.
  intros Hf Hall. unfold abbreviate. rewrite Hf.
  rewrite (abbreviate_loop_exhausted f Hall). reflexivity.
Qed.

Lemma abbreviate_beyond_units_witness :
  abbreviate (10 ^ 15) = inr "1.0T" /\ abbreviate (999 * 10 ^ 12) = inr "999T".
Proof.
  split; [|vm_compute; reflexivity].
  rewrite (abbreviate_beyond_units (10 ^ 15)
             (SF2Prim (binary_normalize 53 1024 (10 ^ 15) 0 false))).
  - vm_compute. reflexivity.
  - vm_compute. reflexivity.
  - intros [|[|[|[|[|j]]]]] Hj; try lia; vm_compute; reflexivity.
Defined.

(** *** The default name of the output *)

Lemma contains_char_app (c : ascii) (a b : string) :
  PyStr.contains_char c (a +:+ b) =
  PyStr.contains_char c a || PyStr.contains_char c b.
Proof.
  induction a as [|x a IH]; str_norm; [reflexivity|].
  cbn [PyStr.contains_char]. now rewrite IH, orb_assoc.
Qed.

Lemma after_last_app (sep : ascii) (a b : string) :
  PyStr.contains_char sep b = false ->
  PyStr.after_last sep (a +:+ String sep b) = b.
Proof.
  intros Hb. induction a as [|c a IH]; str_norm.
  - cbn [PyStr.after_last PyStr.contains_char].
    now rewrite Ascii.eqb_refl, Hb.
  - cbn [PyStr.after_last]. cbn [PyStr.contains_char].
    rewrite contains_char_app. cbn [PyStr.contains_char].
    rewrite Ascii.eqb_refl. cbn [orb]. rewrite !orb_true_r.
    cbn [negb andb]. rewrite andb_false_r. exact IH.
Qed.

Lemma after_last_absent (sep : ascii) (s : string) :
  PyStr.contains_char sep s = false -> PyStr.after_last sep s = s.
Proof.
  intros H. destruct s as [|c s]; [reflexivity|].
  cbn [PyStr.after_last]. now rewrite H.
Qed.

Lemma after_last_clean (sep : ascii) (s : string) :
  PyStr.contains_char sep (PyStr.after_last sep s) = false.
Proof.
  induction s as [|c s IH]; [reflexivity|].
  cbn [PyStr.after_last].
  destruct (PyStr.contains_char sep (String c s)) eqn:Hs; [|exact Hs].
  destruct (Ascii.eqb c sep && negb (PyStr.contains_char sep s)) eqn:Hc;
    [|exact IH].
  apply andb_true_iff in Hc as [_ Hc]. now apply negb_true_iff in Hc.
Qed.

Lemma before_last_app (sep : ascii) (a b : string) :
  PyStr.contains_char sep b = false ->
  PyStr.before_last sep (a +:+ String sep b) = a.
Proof.
  intros Hb. induction a as [|c a IH]; str_norm.
  - cbn [PyStr.before_last]. now rewrite Hb.
  - cbn [PyStr.before_last]. rewrite contains_char_app.
    cbn [PyStr.contains_char]. rewrite Ascii.eqb_refl. cbn [orb].
    rewrite orb_true_r. now rewrite IH.
Qed.

Lemma before_last_sub (c sep : ascii) (s : string) :
  PyStr.contains_char c s = false ->
  PyStr.contains_char c (PyStr.before_last sep s) = false.
Proof.
  induction s as [|x s IH]; [reflexivity|].
  cbn [PyStr.contains_char PyStr.before_last]. intros H.
  apply orb_false_iff in H as [Hx Hs].
  destruct (PyStr.contains_char sep s); [|reflexivity].
  cbn [PyStr.contains_char]. now rewrite Hx, IH.
Qed.

(** X14: the default output name is the file name of the input without
    its directory and without its last extension, so it has no slash (the
    output goes to the working directory, not beside the input), and
    inputs of the same file name in different directories get the same
    default name. *)
Theorem default_name_of_path :
  (forall p, PyStr.contains_char "/" (default_name p) = false) /\
  (forall dir file,
      PyStr.contains_char "/" file = false ->
      default_name (dir +:+ "/" +:+ file) = default_name file) /\
  (forall stem ext,
      PyStr.contains_char "/" stem = false ->
      PyStr.has_other "." stem = true ->
      PyStr.contains_char "." ext = false ->
      PyStr.contains_char "/" ext = false ->
      default_name (stem +:+ "." +:+ ext) = stem) /\
  (forall file,
      PyStr.contains_char "/" file = false ->
      PyStr.contains_char "." file = false ->
      default_name file = file).
Proof.
  unfold default_name, PyStr.basename. repeat split.
  - intros p. unfold PyStr.splitext_root.
    pose proof (after_last_clean "/" p) as Hclean.
    destruct (PyStr.contains_char "." (PyStr.after_last "/" p)); [|exact Hclean].
    destruct (PyStr.has_other "." _); [|exact Hclean].
    now apply before_last_sub.
  - intros dir file Hfile.
    change ("/" +:+ file) with (String "/" file).
    now rewrite (after_last_app "/" dir file Hfile), (after_last_absent "/" file Hfile).
  - intros stem ext Hstem Hother Hdot Hslash.
    change ("." +:+ ext) with (String "." ext).
    rewrite after_last_absent.
    + unfold PyStr.splitext_root. rewrite contains_char_app.
      cbn [PyStr.contains_char]. rewrite Ascii.eqb_refl. cbn [orb].
      rewrite orb_true_r.
      now rewrite (before_last_app "." stem ext Hdot), Hother.
    + rewrite contains_char_app. cbn [PyStr.contains_char].
      now rewrite Hstem, Hslash.
  - intros file Hslash Hdot. rewrite (after_last_absent "/" file Hslash).
    unfold PyStr.splitext_root. now rewrite Hdot.
Qed.

Lemma default_name_of_path_witness :
  default_name ("downloads/models" +:+ "/" +:+ "sd15.ckpt") =
  default_name "sd15.ckpt" /\
  default_name ("sd15.fp16" +:+ "." +:+ "safetensors") = "sd15.fp16".
Proof.
  destruct default_name_of_path as (_ & Hdir & Hext & _). split.
  - apply Hdir. reflexivity.
  - apply Hext; reflexivity.
Defined.

(** *** The rename rules *)

Lemma partition_spec (sep : ascii) (s : string) :
  PyStr.contains_char sep (fst (fst (PyStr.partition sep s))) = false /\
  fst (fst (PyStr.partition sep s)) +:+ snd (fst (PyStr.partition sep s)) +:+
  snd (PyStr.partition sep s) = s.
Proof.
  induction s as [|c s [IH1 IH2]]; [split; reflexivity|].
  cbn [PyStr.partition]. destruct (Ascii.eqb_spec c sep) as [->|Hne].
  - split; reflexivity.
  - destruct (PyStr.partition sep s) as [[a m] b]. cbn [fst snd] in *.
    split.
    + cbn [PyStr.contains_char]. apply Ascii.eqb_neq in Hne.
      now rewrite Hne, IH1.
    + str_norm. now rewrite IH2.
Qed.

Lemma partition_separator (sep : ascii) (s : string) :
  snd (fst (PyStr.partition sep s)) =
  if PyStr.contains_char sep s then String sep "" else "".
Proof.
  induction s as [|c s IH]; [reflexivity|].
  cbn [PyStr.partition PyStr.contains_char].
  destruct (Ascii.eqb c sep); [reflexivity|].
  destruct (PyStr.partition sep s) as [[a m] b]. cbn [fst snd orb] in *.
  exact IH.
Qed.

(** X15: the old part of a parsed [--replace-key] argument never holds a
    colon (no rule can name a part of a key with a colon in it); old
    part, colon and new part give an argument with a colon back; an
    argument without colon is its old part. *)
Theorem parse_replace_key_parts (arg : string) :
  PyStr.contains_char ":" (fst (parse_replace_key arg)) = false /\
  (PyStr.contains_char ":" arg = true ->
   fst (parse_replace_key arg) +:+ ":" +:+ snd (parse_replace_key arg) = arg) /\
  (PyStr.contains_char ":" arg = false ->
   fst (parse_replace_key arg) = arg /\ snd (parse_replace_key arg) = "").
Proof.
  split; [|split].
  - unfold parse_replace_key.
    pose proof (partition_spec ":" arg) as [Hclean _].
    now destruct (PyStr.partition ":" arg) as [[key m] value].
  - intros Hc. unfold parse_replace_key.
    pose proof (partition_spec ":" arg) as [_ Hjoin].
    pose proof (partition_separator ":" arg) as Hsep. rewrite Hc in Hsep.
    destruct (PyStr.partition ":" arg) as [[key m] value].
    cbn [fst snd] in *. now subst m.
  - intros Hc. unfold parse_replace_key.
    rewrite (partition_no_sep ":" arg Hc). split; reflexivity.
Qed.

Lemma parse_replace_key_parts_witness :
  fst (parse_replace_key "model.:net:x") +:+ ":" +:+
  snd (parse_replace_key "model.:net:x") = "model.:net:x".
Proof.
  exact (proj1 (proj2 (parse_replace_key_parts "model.:net:x")) eq_refl).
Defined.

(** A dict updated with entries of new, pairwise distinct keys has them
    appended in their order. *)
Lemma dict_update_fresh {V : Type} (other d : pydict V) :
  NoDup (PyDict.keys d ++ PyDict.keys other) ->
  PyDict.update d other = d ++ other.
Proof.
  revert d. induction other as [|[k v] other IH]; intros d Hnd.
  - cbn. now rewrite app_nil_r.
  - rewrite dict_update_cons.
    assert (Hk : PyDict.mem k d = false).
    { rewrite dict_mem_existsb. apply not_true_is_false. intros Hex.
      apply existsb_exists in Hex as (x & Hx & Hkx).
      apply String.eqb_eq in Hkx. subst x.
      apply NoDup_app in Hnd as (_ & Hdisj & _).
      apply (Hdisj k); [now apply list_elem_of_In | cbn; left]. }
    rewrite (dict_set_absent k v d Hk), IH.
    + now rewrite <- app_assoc.
    + unfold PyDict.keys in *. rewrite map_app. cbn [map fst].
      rewrite <- app_assoc. exact Hnd.
Qed.

Lemma dict_update_empty {V : Type} (d : pydict V) :
  NoDup (PyDict.keys d) -> PyDict.update [] d = d.
Proof. intros Hnd. now rewrite dict_update_fresh. Qed.

(** X12: rules with pairwise distinct old parts are applied in the order
    of the command line: [replace_keys] is the list of the parsed
    arguments. In general its old parts stand in the order of their first
    appearance. *)
Theorem replace_keys_in_argument_order (replace_key : list string) :
  PyDict.keys (parse_replace_keys replace_key)
  = first_occurrences (map (fun arg => fst (parse_replace_key arg)) replace_key)
  /\
  (NoDup (map (fun arg => fst (parse_replace_key arg)) replace_key) ->
   parse_replace_keys replace_key = map parse_replace_key replace_key).
Proof.
  unfold parse_replace_keys, PyDict.of_pairs. split.
  - rewrite dict_keys_update. unfold PyDict.keys, first_occurrences.
    now rewrite map_map.
  - intros Hnd. apply dict_update_empty.
    unfold PyDict.keys. now rewrite map_map.
Qed.

Lemma replace_keys_in_argument_order_witness :
  parse_replace_keys ["model.:net."; "a"; "x:y:z"]
  = map parse_replace_key ["model.:net."; "a"; "x:y:z"].
Proof.
  apply (proj2 (replace_keys_in_argument_order ["model.:net."; "a"; "x:y:z"])).
  refine (bool_decide_unpack _ _). vm_compute. reflexivity.
Defined.

(** *** The merge of [combine] *)

Lemma dict_keys_set_elem {V : Type} (K k : string) (v : V) (d : pydict V) :
  K ∈ PyDict.keys (PyDict.set k v d) <-> K = k \/ K ∈ PyDict.keys d.
Proof.
  rewrite dict_keys_set. unfold PyDict.mem.
  destruct (PyDict.get k d) eqn:Hg.
  - split; [tauto|]. intros [->|H]; [|exact H].
    destruct (decide (k ∈ PyDict.keys d)) as [Hin|Hout]; [exact Hin|].
    apply dict_get_none_keys in Hout. congruence.
  - rewrite elem_of_app, list_elem_of_singleton. tauto.
Qed.

Lemma dict_keys_update_elem {V : Type} (K : string) (other d : pydict V) :
  K ∈ PyDict.keys (PyDict.update d other) <->
  K ∈ PyDict.keys d \/ K ∈ PyDict.keys other.
Proof.
  revert d. induction other as [|[k v] other IH]; intros d.
  - cbn. rewrite elem_of_nil. tauto.
  - rewrite dict_update_cons, IH, dict_keys_set_elem. cbn [PyDict.keys map fst].
    rewrite elem_of_cons. unfold PyDict.keys. tauto.
Qed.

Lemma merged_keys_elem (K : string) (ds : list state_dict) :
  forall acc : state_dict,
  K ∈ PyDict.keys (fold_left PyDict.update ds acc) <->
  K ∈ PyDict.keys acc \/ exists d, d ∈ ds /\ K ∈ PyDict.keys d.
Proof.
  induction ds as [|d ds IH]; intros acc.
  - cbn. split; [tauto|]. intros [H|(d & Hd & _)]; [exact H|].
    now apply elem_of_nil in Hd.
  - cbn [fold_left]. rewrite IH, dict_keys_update_elem. split.
    + intros [[H|H]|(d' & Hd' & HK)].
      * now left.
      * right. exists d. split; [left | exact H].
      * right. exists d'. split; [now right | exact HK].
    + intros [H|(d' & Hd' & HK)]; [tauto|].
      apply elem_of_cons in Hd' as [->|Hd']; [tauto|].
      right. now exists d'.
Qed.

(** X10: the merge of [combine] loses no key and invents none: the keys
    of the combined dict are the keys of the inputs, each of them once. *)
Theorem combine_keeps_every_key
    {File : Type} (U : Util File) (input_files : list string)
    (ds : list state_dict) (w : World File) :
  Forall2 (fun f d => u_load_state_dict U f (fs w) = inr d) input_files ds ->
  exists combined w' dc,
    load_combined U input_files w = (inr combined, w') /\
    heap w' !! combined = Some dc /\
    NoDup (PyDict.keys dc) /\
    (forall K, K ∈ PyDict.keys dc <-> exists d, d ∈ ds /\ K ∈ PyDict.keys d).
Proof.
  intros Hload.
  destruct (load_combined_run U input_files ds w Hload)
    as (w' & Hrun & Hheap & _).
  exists (length (heap w)), w', (merged ds).
  split; [exact Hrun|]. split; [exact Hheap|]. split.
  - unfold merged.
    assert (Hgen : forall acc : state_dict,
               NoDup (PyDict.keys acc) ->
               NoDup (PyDict.keys (fold_left PyDict.update ds acc))).
    { clear. induction ds as [|d ds' IH]; intros acc Hacc; [exact Hacc|].
      cbn [fold_left]. apply IH. now apply dict_update_nodup. }
    apply Hgen. constructor.
  - intros K. unfold merged. rewrite merged_keys_elem. cbn.
    rewrite elem_of_nil. tauto.
Qed.

Lemma combine_keeps_every_key_witness :
  exists combined w' dc,
    load_combined demo_util ["a.ckpt"; "b.ckpt"]
      (empty_world {[ "a.ckpt" := checkpoint_a; "b.ckpt" := checkpoint_b ]})
    = (inr combined, w') /\
    heap w' !! combined = Some dc /\
    NoDup (PyDict.keys dc) /\
    (forall K, K ∈ PyDict.keys dc <->
               exists d, d ∈ [checkpoint_a; checkpoint_b] /\ K ∈ PyDict.keys d).
Proof.
  apply (combine_keeps_every_key demo_util ["a.ckpt"; "b.ckpt"]
           [checkpoint_a; checkpoint_b]).
  repeat constructor.
Defined.
